(** * Certificate generator: name normalisation, text placement, page export
      and the batch driver

    A shallow embedding of [script.py] (variant A, one text per certificate)
    and of [Certificate for Winners/script.py] (variant B, three texts per
    certificate), with the properties of the design document proved about
    the embedded code.

    Conventions of the model.
    - A Python [str] is a list of Unicode code points.
    - Python [int] is [Z]; the quotients computed with [/] are exact
      rationals [Q] (the operands are integers and page dimensions well
      below 2^53, rounding of binary floating point is not modelled).
    - The file system is a finite map from paths to file contents, the
      Pillow images live in an object store indexed by object identity.
    - What the interpreter and the libraries decide (case tables, [int()],
      font files, text metrics, the random temporary name) is a parameter. *)

From Stdlib Require Import ZArith NArith QArith Qminmax Lia Lqa List Ascii String.
From stdpp Require Import base option list gmap.
Import ListNotations.

Local Open Scope N_scope.

(** ** Python strings *)

Definition char := N.
Definition str := list char.

(** Code points of a literal, for examples. *)
Definition py (s : string) : str := List.map N_of_ascii (list_ascii_of_string s).

(** [Py_UNICODE_ISSPACE]: the characters [str.strip()], [str.split()] and
    [str.isspace()] treat as whitespace. *)
Definition isspace (c : char) : bool :=
  ((0x09 <=? c) && (c <=? 0x0D)) || ((0x1C <=? c) && (c <=? 0x20))
  || (c =? 0x85) || (c =? 0xA0) || (c =? 0x1680)
  || ((0x2000 <=? c) && (c <=? 0x200A))
  || (c =? 0x2028) || (c =? 0x2029) || (c =? 0x202F) || (c =? 0x205F)
  || (c =? 0x3000).

Definition SPACE : char := 0x20.
Definition UNDERSCORE : char := 0x5F.

(** [s.lstrip()], [s.rstrip()] and [s.strip()] without argument: the index
    [i] runs up from the left end and [j] down from the right end while the
    character under it is whitespace; the result is [s[i:j]]. *)
Fixpoint lstrip (s : str) : str :=
  match s with
  | [] => []
  | c :: r => if isspace c then lstrip r else s
  end.

Definition rstrip (s : str) : str := rev (lstrip (rev s)).

Definition strip (s : str) : str := rstrip (lstrip s).

(** [s.split()] without argument. The scanner of [split_whitespace] is in
    one of two states: between words ([cur = None], whitespace is skipped)
    or inside the word started at index [j] ([cur = Some w], with [w] the
    characters of [s[j:i]] read so far, last one first). *)
Fixpoint split_scan (cur : option str) (s : str) : list str :=
  match s with
  | [] => match cur with None => [] | Some w => [rev w] end
  | c :: r =>
      if isspace c then
        match cur with
        | None => split_scan None r
        | Some w => rev w :: split_scan None r
        end
      else
        match cur with
        | None => split_scan (Some [c]) r
        | Some w => split_scan (Some (c :: w)) r
        end
  end.

Definition split (s : str) : list str := split_scan None s.

(** [sep.join(words)]. *)
Fixpoint join (sep : str) (words : list str) : str :=
  match words with
  | [] => []
  | [w] => w
  | w :: ws => w ++ sep ++ join sep ws
  end.

(** The case tables of the interpreter. [to_title_full c] is the mapping
    [str.capitalize()] applies to the first character (the full title-case
    mapping; the full upper-case mapping before Python 3.8), [lower_ucs4 data
    i c] the lower-case mapping of the character [c] found at index [i] of
    [data] (the context decides the form of a final sigma). Either may yield
    up to three code points. *)
Class CaseMapping := {
  to_title_full : char -> str;
  lower_ucs4 : str -> nat -> char -> str
}.

Section Normalizer.
Context `{CaseMapping}.

(** The characters of [data] from index [i] on, lowered. *)
Fixpoint lower_from (data : str) (i : nat) (rest : str) : str :=
  match rest with
  | [] => []
  | c :: r => lower_ucs4 data i c ++ lower_from data (S i) r
  end.

(** [word.capitalize()]: the empty string is returned unchanged. *)
Definition capitalize (word : str) : str :=
  match word with
  | [] => []
  | c :: r => to_title_full c ++ lower_from word 1 r
  end.

(** [title_case_name], the same in both variants. *)
Definition title_case_name (name : str) : str :=
  let words := split (strip name) in
  let title_cased_words := List.map capitalize words in
  join [SPACE] title_cased_words.

End Normalizer.

(** Upper and lower case of the Basic Latin block. *)
Definition ascii_upper (c : char) : char :=
  if (0x61 <=? c) && (c <=? 0x7A) then c - 32 else c.

Definition ascii_lower (c : char) : char :=
  if (0x41 <=? c) && (c <=? 0x5A) then c + 32 else c.

Definition latin_title (c : char) : str :=
  if c =? 0x149 then [0x2BC; 0x4E] else [ascii_upper c].

(** Case tables restricted to the Basic Latin block, together with the
    SpecialCasing row of U+0149 (title and upper case: U+02BC U+004E). Every
    other code point is mapped to itself, as the Unicode tables do for the
    characters without case, U+02BC among them. *)
#[export] Instance basic_latin : CaseMapping := {|
  to_title_full := latin_title;
  lower_ucs4 := fun _ _ c => [ascii_lower c]
|}.

(** ** The normalizer in the words of the design document

    Trim leading and trailing whitespace, split on whitespace runs,
    capitalize each token, rejoin with single spaces. These definitions follow
    the document, not the code: trimming folds from the right end, and the
    tokens are the non-empty fields between whitespace characters. *)

Definition trim_right (s : str) : str :=
  fold_right (fun c acc =>
                match acc with
                | [] => if isspace c then [] else [c]
                | _ => c :: acc
                end) [] s.

Definition spec_trim (s : str) : str := rev (trim_right (rev (trim_right s))).

(** The fields of [s] separated by single whitespace characters; a run of
    whitespace gives empty fields. *)
Fixpoint fields (s : str) : list str :=
  match s with
  | [] => [[]]
  | c :: r =>
      if isspace c then [] :: fields r
      else match fields r with
           | [] => [[c]]
           | f :: fs => (c :: f) :: fs
           end
  end.

Definition nonempty (w : str) : bool :=
  match w with [] => false | _ => true end.





(** ** Output file name *)

(** [s.replace(old, new)] for one-character [old] and [new]. *)
Definition replace_1char (old new : char) (s : str) : str :=
  List.map (fun c => if c =? old then new else c) s.

(** [f"{text.strip().replace(' ', '_')}.pdf"] *)
Definition output_pdf_name (text : str) : str :=
  replace_1char SPACE UNDERSCORE (strip text) ++ py ".pdf".

(** The file name in the words of the design document: trimmed, internal
    whitespace replaced by underscores, extension appended. *)
Definition spec_file_name (text : str) : str :=
  List.map (fun c => if isspace c then UNDERSCORE else c) (spec_trim text)
  ++ py ".pdf".

(** ** Page geometry *)

Local Open Scope Q_scope.

(** [reportlab.lib.pagesizes]: [letter] is 8.5 by 11 inches at 72 points per
    inch, [landscape] puts the longer side first. *)
Definition letter : Q * Q := (612, 792).

Definition landscape (pagesize : Q * Q) : Q * Q :=
  let '(a, b) := pagesize in
  if Qlt_le_dec a b then (b, a) else (a, b).

(** Where [drawImage] puts the raster on the page. *)
Record placement := {
  pl_x : Q;
  pl_y : Q;
  pl_width : Q;
  pl_height : Q
}.

(** Lines 97-106 of variant A (104-113 of variant B). A raster with a zero
    side makes the division raise [ZeroDivisionError]. *)
Definition fit_to_page (pagesize : Q * Q) (size : Z * Z) : option placement :=
  let '(width, height) := pagesize in
  let '(img_width, img_height) := size in
  if ((img_width =? 0) || (img_height =? 0))%Z then None
  else
    let ratio := Qmin (width / inject_Z img_width) (height / inject_Z img_height) in
    let img_width := inject_Z img_width * ratio in
    let img_height := inject_Z img_height * ratio in
    let x_centered := (width - img_width) / 2 in
    let y_centered := (height - img_height) / 2 in
    Some {| pl_x := x_centered; pl_y := y_centered;
            pl_width := img_width; pl_height := img_height |}.

Local Close Scope Q_scope.

(** ** Fonts, rasters and files *)

Inductive font :=
  | TrueType (path : str) (size : Z)   (* [ImageFont.truetype(path, size=size)] *)
  | DefaultFace.                       (* [ImageFont.load_default()] *)

(** One call of [draw.text((x, y), text, fill="black", font=font)]. *)
Record text_cmd := {
  tc_x : Q;
  tc_y : Q;
  tc_text : str;
  tc_font : font
}.

(** A raster: its size, the pixel data it was decoded from, and the texts
    drawn on it since, oldest first. *)
Record image := {
  im_size : Z * Z;
  im_pixels : N;
  im_texts : list text_cmd
}.

Inductive file :=
  | ImageFile (img : image)
  | PdfFile (pagesize : Q * Q) (img : image) (pl : placement)
  | TextFile (lines : list str)   (* the lines the file iterator yields *)
  | OtherFile.

Abbreviation filesystem := (gmap str file).

(** The Pillow image objects alive during one render; an object is known by
    its index in the store. *)
Abbreviation store := (list image).

Definition alloc (img : image) (h : store) : nat * store :=
  (length h, h ++ [img]).

(** [Image.open(path)] *)
Definition Image_open (fs : filesystem) (path : str) (h : store)
  : option (nat * store) :=
  match fs !! path with
  | Some (ImageFile img) => Some (alloc img h)
  | _ => None
  end.

(** [img.copy()] *)
Definition Image_copy (img : nat) (h : store) : option (nat * store) :=
  match h !! img with
  | Some v => Some (alloc v h)
  | None => None
  end.

Definition add_text (cmd : text_cmd) (v : image) : image :=
  {| im_size := im_size v; im_pixels := im_pixels v;
     im_texts := im_texts v ++ [cmd] |}.

(** [draw.text(...)] on the drawing object made by [ImageDraw.Draw(target)]:
    the raster of [target] is changed in place. *)
Definition Draw_text (target : nat) (cmd : text_cmd) (h : store) : store :=
  alter (add_text cmd) target h.

(** What is printed. *)
Inductive printed :=
  | UsingCustomFont (path : str) (size : Z)
  | UsingSystemFont (path : str) (size : Z)
  | UsingPILDefaultFont
  | ErrorWithFont
  | FallingBackToDefaultFont
  | ErrorLoadingFont
  | WarningCouldNotDelete (path : str)
  | AnErrorOccurred
  | FoundNames (total : nat) (names_file : str)
  | Processing (i total : nat) (raw_name properly_cased_name : str)
  | EventAndRank (event_name rank : str)
  | PdfCreated (result : str)
  | FailedToCreate (properly_cased_name : str)
  | Summary (successful failed total : nat)
  | ErrorProcessingNamesFile.

(** What the platform and the libraries decide. *)
Record Env := {
  platform : str;                          (* [sys.platform] *)
  path_exists : str -> bool;               (* [os.path.exists] *)
  truetype_loads : str -> Z -> bool;       (* [ImageFont.truetype] succeeds *)
  has_textsize : bool;                     (* [hasattr(draw, 'textsize')] *)
  textsize : font -> str -> Q * Q;         (* [draw.textsize(text, font)] *)
  getbbox : font -> str -> Q * Q * Q * Q;  (* [font.getbbox(text)] *)
  uuid4 : nat -> str;                      (* [str(uuid.uuid4())[:8]] of the n-th render *)
  writable : str -> bool;                  (* the file can be written *)
  removable : str -> bool;                 (* [os.remove] succeeds *)
  py_int : str -> option Z                 (* [int(s)], [None] for [ValueError] *)
}.

Fixpoint startswith (prefix s : str) : bool :=
  match prefix, s with
  | [], _ => true
  | p :: ps, c :: cs => (p =? c) && startswith ps cs
  | _ :: _, [] => false
  end.

Definition str_eqb (a b : str) : bool := bool_decide (a = b).

(** The [system_fonts] table and the choice by [sys.platform]. *)
Definition system_font (env : Env) : str :=
  if startswith (py "win") (platform env) then py "arial.ttf"
  else if str_eqb (platform env) (py "darwin") then py "/Library/Fonts/Arial.ttf"
  else py "/usr/share/fonts/truetype/dejavu/DejaVuSans.ttf".

(** Truth value of an optional string: [None] and [''] are false. *)
Definition truthy (s : option str) : bool :=
  match s with
  | Some (_ :: _) => true
  | _ => false
  end.

(** Lines 71-75 of variant A (73-77 of variant B). *)
Definition text_dimensions (env : Env) (f : font) (text : str) : Q * Q :=
  if has_textsize env then textsize env f text
  else
    let '(x0, y0, x1, y1) := getbbox env f text in
    ((x1 - x0)%Q, (y1 - y0)%Q).

(** Lines 69-82 of variant A (72-84 of variant B): measure the text, put its
    left edge half its width left of [x], draw it. *)
Definition centered_text (env : Env) (f : font) (text : str) (position : Q * Q)
  : text_cmd :=
  let '(text_width, text_height) := text_dimensions env f text in
  let '(x, y) := position in
  let x_centered := (x - (text_width / 2))%Q in
  {| tc_x := x_centered; tc_y := y; tc_text := text; tc_font := f |}.

Definition draw_centered (env : Env) (draw : nat) (f : font) (text : str)
    (position : Q * Q) (h : store) : store :=
  Draw_text draw (centered_text env f text position) h.

(** The state of one render after the texts are drawn. *)
Record composited := {
  co_img : nat;        (* the object opened from the template *)
  co_copy : nat;       (* the object drawn on *)
  co_store : store;
  co_printed : list printed
}.

(** Lines 26-27 of variant A (38-39 of variant B). *)
Definition temp_image_path (env : Env) (call : nat) : str :=
  py "temp_with_text_" ++ uuid4 env call ++ py ".jpg".

(** Lines 84-122 of variant A (91-129 of variant B): save the raster to the
    temporary file, write the page, remove the temporary file. An exception
    ends the render with [None]; what was written before stays. The template
    is a JPEG, as the docstring has it, so that its mode can be saved under
    the [.jpg] name; [writable] stands for every other reason a write fails. *)
Definition convert_to_pdf (env : Env) (call : nat) (fs : filesystem)
    (c : composited) (text : str) : option str * filesystem * list printed :=
  let temp_image_path := temp_image_path env call in
  match co_store c !! co_copy c with
  | None => (None, fs, co_printed c ++ [AnErrorOccurred])
  | Some img_copy =>
      if negb (writable env temp_image_path)
      then (None, fs, co_printed c ++ [AnErrorOccurred])
      else
        let fs1 := <[temp_image_path := ImageFile img_copy]> fs in
        let output_pdf := output_pdf_name text in
        let pagesize := landscape letter in
        match fs1 !! temp_image_path with
        | Some (ImageFile img) =>
            match fit_to_page pagesize (im_size img) with
            | None => (None, fs1, co_printed c ++ [AnErrorOccurred])
            | Some pl =>
                if negb (writable env output_pdf)
                then (None, fs1, co_printed c ++ [AnErrorOccurred])
                else
                  let fs2 := <[output_pdf := PdfFile pagesize img pl]> fs1 in
                  if removable env temp_image_path
                  then (Some output_pdf, delete temp_image_path fs2, co_printed c)
                  else (Some output_pdf, fs2,
                        co_printed c ++ [WarningCouldNotDelete temp_image_path])
            end
        | _ => (None, fs1, co_printed c ++ [AnErrorOccurred])
        end
  end.

(** The tally and transcript of a batch. [br_rendered] lists the texts handed
    to the renderer, oldest first. *)
Record batch_result := {
  br_successful : nat;
  br_failed : nat;
  br_fs : filesystem;
  br_printed : list printed;
  br_rendered : list str
}.

(** Lines 161-163 of variant A (178-180 of variant B). [None]: the file
    cannot be opened or decoded. *)
Definition read_names (fs : filesystem) (names_file : str) : option (list str) :=
  match fs !! names_file with
  | Some (TextFile lines) =>
      Some (List.map strip (List.filter (fun line => nonempty (strip line)) lines))
  | _ => None
  end.

Inductive exn := IndexError | ValueError.

Inductive main_outcome :=
  | UsageShown                      (* usage printed, [main] returns *)
  | Uncaught (e : exn)              (* the exception leaves [main]: exit status 1 *)
  | Completed (r : batch_result).   (* the batch ran, [main] returns *)

Definition exit_status (o : main_outcome) : Z :=
  match o with
  | Uncaught _ => 1
  | _ => 0
  end.

(** [sys.argv[i]] and [int(s)] in the error monad of [main]. *)
Definition raising (A : Type) : Type := exn + A.

Definition bind_raising {A B} (m : raising A) (k : A -> raising B) : raising B :=
  match m with
  | inl e => inl e
  | inr a => k a
  end.

Notation "'let!' x ':=' m 'in' k" := (bind_raising m (fun x => k))
  (at level 10, x name, m at level 100, k at level 200).

Definition item (argv : list str) (i : nat) : raising str :=
  match argv !! i with
  | Some a => inr a
  | None => inl IndexError
  end.

Definition int (env : Env) (s : str) : raising Z :=
  match py_int env s with
  | Some z => inr z
  | None => inl ValueError
  end.

(** ** The batch loop

    Lines 168-183 of variant A (185-204 of variant B); [extra] is what
    variant B prints more per item. The renderer gets the number of the item,
    the file system as it is and the normalized name. *)
Section Batch.
Context `{CaseMapping}.
Variable render : nat -> filesystem -> str -> option str * filesystem * list printed.
Variable extra : list printed.
Variable total_names : nat.

Fixpoint batch_loop (i : nat) (names : list str) (st : batch_result)
  : batch_result :=
  match names with
  | [] => st
  | raw_name :: rest =>
      let properly_cased_name := title_case_name raw_name in
      let '(result, fs', out) := render i (br_fs st) properly_cased_name in
      let shown :=
        br_printed st
        ++ Processing i total_names raw_name properly_cased_name :: extra
        ++ out in
      let st' :=
        if truthy result then
          {| br_successful := S (br_successful st);
             br_failed := br_failed st;
             br_fs := fs';
             br_printed := shown ++ [PdfCreated (default [] result)];
             br_rendered := br_rendered st ++ [properly_cased_name] |}
        else
          {| br_successful := br_successful st;
             br_failed := S (br_failed st);
             br_fs := fs';
             br_printed := shown ++ [FailedToCreate properly_cased_name];
             br_rendered := br_rendered st ++ [properly_cased_name] |}
      in
      batch_loop (S i) rest st'
  end.
End Batch.

(** [process_names_from_file] of both variants, up to the renderer and the
    line variant B prints more. *)
Definition process_names `{CaseMapping}
    (render : nat -> filesystem -> str -> option str * filesystem * list printed)
    (extra : list printed) (fs : filesystem) (names_file : str) : batch_result :=
  match read_names fs names_file with
  | None =>
      {| br_successful := 0; br_failed := 0; br_fs := fs;
         br_printed := [ErrorProcessingNamesFile]; br_rendered := [] |}
  | Some names =>
      let total_names := length names in
      let st :=
        batch_loop render extra total_names 1 names
          {| br_successful := 0; br_failed := 0; br_fs := fs;
             br_printed := [FoundNames total_names names_file];
             br_rendered := [] |} in
      {| br_successful := br_successful st;
         br_failed := br_failed st;
         br_fs := br_fs st;
         br_printed :=
           br_printed st
           ++ [Summary (br_successful st) (br_failed st) total_names];
         br_rendered := br_rendered st |}
  end.

(** ** Variant A: [script.py] *)
Module VariantA.
Section WithEnv.
Context `{CaseMapping} (env : Env).

(** Lines 37-67: the font of the text. *)
Definition resolve_font (font_path : option str) (font_size : Z)
  : font * list printed :=
  let p := default [] font_path in
  if truthy font_path && path_exists env p then
    if truetype_loads env p font_size
    then (TrueType p font_size, [UsingCustomFont p font_size])
    else (DefaultFace, [ErrorWithFont; FallingBackToDefaultFont])
  else
    let default_font := system_font env in
    if truetype_loads env default_font font_size
    then (TrueType default_font font_size,
          [UsingSystemFont default_font font_size])
    else (DefaultFace, [UsingPILDefaultFont]).

(** Lines 29-82: open the template, copy it, draw the text on the copy. *)
Definition composite (fs : filesystem) (h : store) (image_path text : str)
    (position : Q * Q) (font_path : option str) (font_size : Z)
  : option composited :=
  match Image_open fs image_path h with
  | None => None
  | Some (img, h1) =>
      match Image_copy img h1 with
      | None => None
      | Some (img_copy, h2) =>
          let draw := img_copy in
          let '(f, out) := resolve_font font_path font_size in
          let h3 := draw_centered env draw f text position h2 in
          Some {| co_img := img; co_copy := img_copy; co_store := h3;
                  co_printed := out |}
      end
  end.

Definition add_text_to_image_and_convert_to_pdf (call : nat) (fs : filesystem)
    (image_path text : str) (position : Q * Q) (font_path : option str)
    (font_size : Z) : option str * filesystem * list printed :=
  match composite fs [] image_path text position font_path font_size with
  | None => (None, fs, [AnErrorOccurred])
  | Some c => convert_to_pdf env call fs c text
  end.

Definition process_names_from_file (fs : filesystem) (image_path names_file : str)
    (position : Q * Q) (font_path : option str) (font_size : Z) : batch_result :=
  process_names
    (fun call fs' name =>
       add_text_to_image_and_convert_to_pdf call fs' image_path name position
         font_path font_size)
    [] fs names_file.

(** Lines 199-210: the arguments, read in this order. *)
Definition parse_args (argv : list str)
  : raising (str * str * (Q * Q) * option str * Z) :=
  let! image_path := item argv 1 in
  let! names_file := item argv 2 in
  let! a3 := item argv 3 in
  let! x_pos := int env a3 in
  let! a4 := item argv 4 in
  let! y_pos := int env a4 in
  let! font_path :=
    (if (6 <=? length argv)%nat
     then (let! a5 := item argv 5 in inr (Some a5))
     else inr None) in
  let! font_size :=
    (if (7 <=? length argv)%nat
     then (let! a6 := item argv 6 in int env a6)
     else inr 30%Z) in
  inr (image_path, names_file, (inject_Z x_pos, inject_Z y_pos), font_path, font_size).

Definition main (fs : filesystem) (argv : list str) : main_outcome :=
  if (length argv <? 4)%nat then UsageShown
  else
    match parse_args argv with
    | inl e => Uncaught e
    | inr (image_path, names_file, position, font_path, font_size) =>
        Completed (process_names_from_file fs image_path names_file position
                     font_path font_size)
    end.

End WithEnv.
End VariantA.

(** ** Variant B: [Certificate for Winners/script.py] *)
Module VariantB.
Section WithEnv.
Context `{CaseMapping} (env : Env).

(** Lines 65-70: the font of one text. *)
Definition load_font (font_size : Z) : font * list printed :=
  let default_font_path := system_font env in
  if truetype_loads env default_font_path font_size
  then (TrueType default_font_path font_size, [])
  else (DefaultFace, [ErrorLoadingFont]).

(** Lines 64-84. *)
Definition add_centered_text (draw : nat) (text : str) (position : Q * Q)
    (font_size : Z) (st : store * list printed) : store * list printed :=
  let '(h, shown) := st in
  let '(f, out) := load_font font_size in
  (draw_centered env draw f text position h, shown ++ out).

(** Lines 41-89: open the template, copy it, draw the three texts. *)
Definition composite (fs : filesystem) (h : store) (image_path : str)
    (name : str) (name_position : Q * Q) (name_font_size : Z)
    (event_name : str) (event_position : Q * Q) (event_font_size : Z)
    (rank : str) (rank_position : Q * Q) (rank_font_size : Z)
  : option composited :=
  match Image_open fs image_path h with
  | None => None
  | Some (img, h1) =>
      match Image_copy img h1 with
      | None => None
      | Some (img_copy, h2) =>
          let draw := img_copy in
          let st1 := add_centered_text draw name name_position name_font_size (h2, []) in
          let st2 := add_centered_text draw event_name event_position event_font_size st1 in
          let st3 := add_centered_text draw rank rank_position rank_font_size st2 in
          Some {| co_img := img; co_copy := img_copy; co_store := fst st3;
                  co_printed := snd st3 |}
      end
  end.

Definition add_texts_to_image_and_convert_to_pdf (call : nat) (fs : filesystem)
    (image_path : str)
    (name : str) (name_position : Q * Q) (name_font_size : Z)
    (event_name : str) (event_position : Q * Q) (event_font_size : Z)
    (rank : str) (rank_position : Q * Q) (rank_font_size : Z)
  : option str * filesystem * list printed :=
  match composite fs [] image_path name name_position name_font_size
          event_name event_position event_font_size
          rank rank_position rank_font_size with
  | None => (None, fs, [AnErrorOccurred])
  | Some c => convert_to_pdf env call fs c name
  end.

Definition process_names_from_file (fs : filesystem) (image_path names_file : str)
    (name_position : Q * Q) (name_font_size : Z)
    (event_name : str) (event_position : Q * Q) (event_font_size : Z)
    (rank : str) (rank_position : Q * Q) (rank_font_size : Z) : batch_result :=
  process_names
    (fun call fs' name =>
       add_texts_to_image_and_convert_to_pdf call fs' image_path
         name name_position name_font_size
         event_name event_position event_font_size
         rank rank_position rank_font_size)
    [EventAndRank event_name rank] fs names_file.

(** The parsed command line. *)
Record arguments := {
  a_image_path : str;
  a_names_file : str;
  a_name_position : Q * Q;
  a_name_font_size : Z;
  a_event_name : str;
  a_event_position : Q * Q;
  a_event_font_size : Z;
  a_rank : str;
  a_rank_position : Q * Q;
  a_rank_font_size : Z
}.

(** Lines 230-248: the arguments, read in this order. *)
Definition parse_args (argv : list str) : raising arguments :=
  let! image_path := item argv 1 in
  let! names_file := item argv 2 in
  let! a3 := item argv 3 in
  let! name_x := int env a3 in
  let! a4 := item argv 4 in
  let! name_y := int env a4 in
  let! a5 := item argv 5 in
  let! name_font_size := int env a5 in
  let! event_name := item argv 6 in
  let! a7 := item argv 7 in
  let! event_x := int env a7 in
  let! a8 := item argv 8 in
  let! event_y := int env a8 in
  let! a9 := item argv 9 in
  let! event_font_size := int env a9 in
  let! rank := item argv 10 in
  let! a11 := item argv 11 in
  let! rank_x := int env a11 in
  let! a12 := item argv 12 in
  let! rank_y := int env a12 in
  let! a13 := item argv 13 in
  let! rank_font_size := int env a13 in
  inr {| a_image_path := image_path;
         a_names_file := names_file;
         a_name_position := (inject_Z name_x, inject_Z name_y);
         a_name_font_size := name_font_size;
         a_event_name := event_name;
         a_event_position := (inject_Z event_x, inject_Z event_y);
         a_event_font_size := event_font_size;
         a_rank := rank;
         a_rank_position := (inject_Z rank_x, inject_Z rank_y);
         a_rank_font_size := rank_font_size |}.

Definition main (fs : filesystem) (argv : list str) : main_outcome :=
  if (length argv <? 11)%nat then UsageShown
  else
    match parse_args argv with
    | inl e => Uncaught e
    | inr a =>
        Completed
          (process_names_from_file fs (a_image_path a) (a_names_file a)
             (a_name_position a) (a_name_font_size a)
             (a_event_name a) (a_event_position a) (a_event_font_size a)
             (a_rank a) (a_rank_position a) (a_rank_font_size a))
    end.

End WithEnv.
End VariantB.

(** ** Predicates used in the statements *)

Definition is_ascii (c : char) : bool := c <? 128.

(** The case tables agree with the interpreter's on the Basic Latin block,
    where upper and lower case are the ASCII ones. *)
Definition ascii_exact `{CaseMapping} : Prop :=
  (forall c, is_ascii c = true -> to_title_full c = [ascii_upper c]) /\
  (forall data i c, is_ascii c = true -> lower_ucs4 data i c = [ascii_lower c]).

(** A token: not empty, no whitespace in it. *)
Definition is_word (w : str) : bool :=
  nonempty w && forallb (fun c => negb (isspace c)) w.

(** The only whitespace in [s] is the space character. *)
Definition only_spaces (s : str) : bool :=
  forallb (fun c => implb (isspace c) (c =? SPACE)) s.

(** [cmd] draws [text] with its left edge half the measured width left of the
    requested [x], so that the middle of the text is at [x], and with its top
    at the requested [y]. *)
Definition centered (env : Env) (text : str) (position : Q * Q) (cmd : text_cmd)
  : Prop :=
  let w := fst (text_dimensions env (tc_font cmd) text) in
  tc_text cmd = text /\
  (tc_x cmd == fst position - w / 2)%Q /\
  ((tc_x cmd + (tc_x cmd + w)) / 2 == fst position)%Q /\
  tc_y cmd = snd position.


(** What a render needs to succeed; fonts are not part of it. *)
Definition renderable (env : Env) (call : nat) (fs : filesystem)
    (image_path text : str) : bool :=
  match fs !! image_path with
  | Some (ImageFile tpl) =>
      writable env (temp_image_path env call)
      && negb ((fst (im_size tpl) =? 0) || (snd (im_size tpl) =? 0))%Z
      && writable env (output_pdf_name text)
  | _ => false
  end.

(** The font the resolution order gives: the candidate path, or the built-in
    face when the candidate does not load. *)
Definition font_of_candidate (env : Env) (candidate : str) (font_size : Z) : font :=
  if truetype_loads env candidate font_size
  then TrueType candidate font_size
  else DefaultFace.

(** The result of a batch over the [lines] of the names file. *)
Definition tally_of `{CaseMapping} (lines : list str) (r : batch_result) : Prop :=
  let names := List.filter (fun line => nonempty (strip line)) lines in
  br_rendered r = List.map (fun line => title_case_name (strip line)) names /\
  (br_successful r + br_failed r = length names)%nat /\
  last (br_printed r)
  = Some (Summary (br_successful r) (br_failed r) (length names)).

(** The result of a batch that could not read its names file. *)
Definition aborted (fs : filesystem) : batch_result :=
  {| br_successful := 0; br_failed := 0; br_fs := fs;
     br_printed := [ErrorProcessingNamesFile]; br_rendered := [] |}.

(** ** An environment and a file system for examples

    A Linux machine without the DejaVu font, so that texts are set in the
    built-in face (6 by 11 pixels a character); [int()] on plain decimal
    literals; a template of 1000 by 600 pixels and three lines of names. *)

Fixpoint decimal_digits (acc : Z) (s : str) : option Z :=
  match s with
  | [] => Some acc
  | c :: r =>
      if (0x30 <=? c) && (c <=? 0x39)
      then decimal_digits (10 * acc + Z.of_N (c - 0x30)) r
      else None
  end.

Definition plain_decimal (s : str) : option Z :=
  match s with
  | [] => None
  | _ => decimal_digits 0 s
  end.

Definition demo_env : Env := {|
  platform := py "linux";
  path_exists := fun _ => false;
  truetype_loads := fun _ _ => false;
  has_textsize := false;
  textsize := fun _ _ => (0%Q, 0%Q);
  getbbox := fun _ text => (0%Q, 0%Q, inject_Z (6 * Z.of_nat (length text)), 11%Q);
  uuid4 := fun n => py "1f0e4c2" ++ [0x61 + N.of_nat n];
  writable := fun _ => true;
  removable := fun _ => true;
  py_int := plain_decimal
|}.

Definition demo_template : image :=
  {| im_size := (1000%Z, 600%Z); im_pixels := 1; im_texts := [] |}.

Definition demo_fs : filesystem :=
  <[py "cert.jpg" := ImageFile demo_template]>
    (<[py "names.txt" := TextFile [py "jane doe"; py "  "; py " JOHN  smith "]]> ∅).

(** ** Predicates used in the further properties *)

(** A document is stored under the path [p]. *)
Definition is_document (fs : filesystem) (p : str) : Prop :=
  exists pagesize img pl, fs !! p = Some (PdfFile pagesize img pl).

(** The messages about the choice of a font. *)
Definition font_message (m : printed) : bool :=
  match m with
  | UsingCustomFont _ _ | UsingSystemFont _ _ | UsingPILDefaultFont
  | ErrorWithFont | FallingBackToDefaultFont | ErrorLoadingFont => true
  | _ => false
  end.

(** The raster [img] is [tpl] with the [texts] drawn on it, in this order,
    and nothing else changed. *)
Definition drawn_on (tpl : image) (texts : list str) (img : image) : Prop :=
  im_size img = im_size tpl /\
  im_pixels img = im_pixels tpl /\
  List.map tc_text (im_texts img) = List.map tc_text (im_texts tpl) ++ texts.

(** ** More environments for examples *)

(** As [demo_env], but the temporary file cannot be removed. *)
Definition demo_env_locked : Env := {|
  platform := platform demo_env;
  path_exists := path_exists demo_env;
  truetype_loads := truetype_loads demo_env;
  has_textsize := has_textsize demo_env;
  textsize := textsize demo_env;
  getbbox := getbbox demo_env;
  uuid4 := uuid4 demo_env;
  writable := writable demo_env;
  removable := fun _ => false;
  py_int := py_int demo_env
|}.

(** As [demo_env], but no [Jane_Doe.pdf] can be written. *)
Definition demo_env_protected : Env := {|
  platform := platform demo_env;
  path_exists := path_exists demo_env;
  truetype_loads := truetype_loads demo_env;
  has_textsize := has_textsize demo_env;
  textsize := textsize demo_env;
  getbbox := getbbox demo_env;
  uuid4 := uuid4 demo_env;
  writable := fun p => negb (str_eqb p (py "Jane_Doe.pdf"));
  removable := removable demo_env;
  py_int := py_int demo_env
|}.

(** A template stored under the name of the document of "Jane Doe". *)
Definition demo_fs_pdf_template : filesystem :=
  <[py "Jane_Doe.pdf" := ImageFile demo_template]> demo_fs.

(** What a render may print: font messages, the error of a failed render, the
    warning about the temporary file. *)
Definition render_message (m : printed) : bool :=
  font_message m ||
  match m with
  | AnErrorOccurred | WarningCouldNotDelete _ => true
  | _ => false
  end.

(** Every document the transcript reports as created is on disk. *)
Definition reported_exist (r : batch_result) : Prop :=
  forall out, In (PdfCreated out) (br_printed r) -> is_document (br_fs r) out.

(** The result of a batch whose names file has no name in it. *)
Definition nothing_to_do (fs : filesystem) (names_file : str) : batch_result :=
  {| br_successful := 0; br_failed := 0; br_fs := fs;
     br_printed := [FoundNames 0 names_file; Summary 0 0 0];
     br_rendered := [] |}.

(** * Properties *)

(** ** Trimming and splitting *)

Lemma lstrip_app_last (a : str) (c : char) :
  lstrip (a ++ [c]) =
  match lstrip a with
  | [] => if isspace c then [] else [c]
  | _ => lstrip a ++ [c]
  end.
Proof.
  induction a as [|x a IH]; simpl.
  - reflexivity.
  - destruct (isspace x); [exact IH | reflexivity].
Qed.

Lemma trim_right_cons (c : char) (r : str) :
  trim_right (c :: r) =
  match trim_right r with
  | [] => if isspace c then [] else [c]
  | _ => c :: trim_right r
  end.
Proof. reflexivity. Qed.

Lemma rstrip_trim_right (s : str) : rstrip s = trim_right s.
Proof.
  unfold rstrip. induction s as [|c r IH].
  - reflexivity.
  - rewrite trim_right_cons, <- IH. simpl rev at 2.
    rewrite lstrip_app_last.
    destruct (lstrip (rev r)) as [|y l] eqn:E.
    + simpl. destruct (isspace c); reflexivity.
    + rewrite rev_app_distr. simpl.
      destruct (rev l ++ [y]) eqn:E'; [now destruct (rev l)|reflexivity].
Qed.

Lemma lstrip_trim_right (s : str) : lstrip (trim_right s) = trim_right (lstrip s).
Proof.
  induction s as [|c r IH].
  - reflexivity.
  - rewrite trim_right_cons. simpl lstrip at 2.
    destruct (isspace c) eqn:Ec.
    + rewrite <- IH. destruct (trim_right r); simpl; [|rewrite Ec]; reflexivity.
    + rewrite trim_right_cons. destruct (trim_right r); simpl; rewrite Ec; reflexivity.
Qed.

Lemma strip_spec_trim (s : str) : strip s = spec_trim s.
Proof.
  unfold strip, spec_trim.
  rewrite <- (rstrip_trim_right (rev _)). unfold rstrip at 2.
  rewrite !rev_involutive, rstrip_trim_right.
  symmetry. apply lstrip_trim_right.
Qed.

Lemma fields_not_nil (s : str) : fields s <> [].
Proof.
  destruct s as [|c r]; simpl; [discriminate|].
  destruct (isspace c); [discriminate|]. destruct (fields r); discriminate.
Qed.

(** The scanner against the fields: a word under construction is the head
    of the first field. *)
Lemma split_scan_fields (s : str) (cur : option str) :
  split_scan cur s =
  match cur, fields s with
  | None, fs => List.filter nonempty fs
  | Some w, f :: fs => (rev w ++ f) :: List.filter nonempty fs
  | Some w, [] => []
  end.
Proof.
  revert cur. induction s as [|c r IH]; intros cur.
  - destruct cur; simpl; [rewrite app_nil_r|]; reflexivity.
  - simpl. destruct (isspace c) eqn:Ec.
    + destruct cur as [w|]; simpl; rewrite IH; [rewrite app_nil_r|]; reflexivity.
    + pose proof (fields_not_nil r) as Hne.
      destruct cur as [w|]; rewrite IH; destruct (fields r) as [|f fs];
        try congruence; simpl.
      * rewrite <- app_assoc. reflexivity.
      * reflexivity.
Qed.


Lemma lstrip_all_space (s : str) : forallb isspace s = true -> lstrip s = [].
Proof.
  induction s as [|c r IH]; simpl; [reflexivity|].
  intros [Hc Hr]%andb_prop. rewrite Hc. auto.
Qed.



(** ** Tokens, and the normalizer applied twice *)

Lemma forallb_rev {A} (P : A -> bool) (l : list A) :
  forallb P (rev l) = forallb P l.
Proof.
  induction l as [|x l IH]; simpl; [reflexivity|].
  rewrite forallb_app, IH. simpl. rewrite andb_true_r. apply andb_comm.
Qed.

Lemma lstrip_forallb (P : char -> bool) (s : str) :
  forallb P s = true -> forallb P (lstrip s) = true.
Proof.
  induction s as [|c r IH]; simpl; [reflexivity|].
  intros Hs. destruct (isspace c); [|exact Hs].
  apply IH. now apply andb_prop in Hs.
Qed.

Lemma strip_forallb (P : char -> bool) (s : str) :
  forallb P s = true -> forallb P (strip s) = true.
Proof.
  intros Hs. unfold strip, rstrip. rewrite forallb_rev.
  apply lstrip_forallb. rewrite forallb_rev. now apply lstrip_forallb.
Qed.

(** Every token of the scanner is a word, and inherits what holds of all
    characters of the input. *)
Lemma split_scan_Forall (P : char -> bool) (s : str) (cur : option str) :
  forallb P s = true ->
  (forall w, cur = Some w -> is_word w = true /\ forallb P w = true) ->
  Forall (fun w => is_word w = true /\ forallb P w = true) (split_scan cur s).
Proof.
  revert cur. induction s as [|c r IH]; intros cur Hs Hcur.
  - destruct cur as [w|]; simpl; [|constructor].
    destruct (Hcur w eq_refl) as [Hw HP].
    constructor; [|constructor]. unfold is_word in *.
    rewrite !forallb_rev. split; [|exact HP].
    destruct w; [discriminate|]. simpl in *.
    destruct (rev w ++ [c]) eqn:E; [now destruct (rev w)|exact Hw].
  - simpl in Hs. apply andb_prop in Hs as [Hc Hr]. simpl.
    destruct (isspace c) eqn:Ec.
    + destruct cur as [w|].
      * constructor; [|apply IH; [exact Hr|discriminate]].
        destruct (Hcur w eq_refl) as [Hw HP]. unfold is_word in *.
        rewrite !forallb_rev. split; [|exact HP].
        destruct w; [discriminate|]. simpl in *.
        destruct (rev w ++ [c0]) eqn:E; [now destruct (rev w)|exact Hw].
      * apply IH; [exact Hr|discriminate].
    + destruct cur as [w|]; apply IH; try exact Hr; intros w' [= <-].
      * destruct (Hcur w eq_refl) as [Hw HP]. unfold is_word in *. simpl.
        rewrite Ec, Hc, HP. simpl. apply andb_prop in Hw as [_ Hw].
        rewrite Hw. auto.
      * unfold is_word. simpl. rewrite Ec, Hc. auto.
Qed.

Lemma split_Forall (P : char -> bool) (s : str) :
  forallb P s = true ->
  Forall (fun w => is_word w = true /\ forallb P w = true) (split s).
Proof. intros Hs. apply split_scan_Forall; [exact Hs|discriminate]. Qed.

Lemma split_scan_lstrip (s : str) : split_scan None (lstrip s) = split_scan None s.
Proof.
  induction s as [|c r IH]; simpl; [reflexivity|].
  destruct (isspace c) eqn:Ec; [exact IH|]. simpl. rewrite Ec. reflexivity.
Qed.

Lemma split_scan_trim_right (s : str) (cur : option str) :
  split_scan cur (trim_right s) = split_scan cur s.
Proof.
  revert cur. induction s as [|c r IH]; intros cur; [reflexivity|].
  rewrite trim_right_cons. destruct (trim_right r) as [|y l].
  - simpl. destruct (isspace c) eqn:Ec.
    + destruct cur; rewrite <- IH; reflexivity.
    + simpl. rewrite Ec. destruct cur; rewrite <- IH; reflexivity.
  - remember (y :: l) as t. simpl.
    destruct (isspace c); destruct cur; rewrite IH; reflexivity.
Qed.

(** [split()] ignores leading and trailing whitespace by itself. *)
Lemma split_strip (s : str) : split (strip s) = split s.
Proof.
  unfold split, strip. rewrite rstrip_trim_right, split_scan_trim_right.
  apply split_scan_lstrip.
Qed.

Lemma split_scan_word (w t : str) (cur : option str) :
  is_word w = true ->
  split_scan cur (w ++ t) = split_scan (Some (rev w ++ default [] cur)) t.
Proof.
  unfold is_word. revert cur.
  induction w as [|c w IH]; intros cur Hw; [discriminate|].
  simpl in Hw. apply andb_prop in Hw as [Hc Hw].
  apply negb_true_iff in Hc.
  replace (split_scan cur ((c :: w) ++ t))
    with (split_scan (Some (c :: default [] cur)) (w ++ t))
    by (simpl; rewrite Hc; destruct cur; reflexivity).
  destruct w as [|c' w'].
  - reflexivity.
  - rewrite IH by (simpl in *; exact Hw).
    simpl. rewrite <- !app_assoc. reflexivity.
Qed.

(** Splitting what was joined with single spaces gives the words back. *)
Lemma split_join (ws : list str) :
  Forall (fun w => is_word w = true) ws -> split (join [SPACE] ws) = ws.
Proof.
  unfold split. induction 1 as [|w ws Hw Hws IH]; [reflexivity|].
  destruct ws as [|w2 ws].
  - simpl. rewrite <- (app_nil_r w) at 1. rewrite split_scan_word by exact Hw.
    simpl. rewrite app_nil_r, rev_involutive. reflexivity.
  - change (join [SPACE] (w :: w2 :: ws))
      with (w ++ SPACE :: join [SPACE] (w2 :: ws)).
    rewrite split_scan_word by exact Hw.
    change (split_scan (Some (rev w ++ default [] None))
              (SPACE :: join [SPACE] (w2 :: ws)))
      with (rev (rev w ++ []) :: split_scan None (join [SPACE] (w2 :: ws))).
    rewrite IH, app_nil_r, rev_involutive. reflexivity.
Qed.


(** A property of all ASCII characters, decided by running through them. *)
Lemma ascii_cases (P : char -> bool) :
  forallb P (List.map N.of_nat (seq 0 128)) = true ->
  forall c, is_ascii c = true -> P c = true.
Proof.
  intros HP c Hc. rewrite forallb_forall in HP. apply HP.
  apply in_map_iff. exists (N.to_nat c). split; [apply N2Nat.id|].
  apply in_seq. unfold is_ascii in Hc. apply N.ltb_lt in Hc. lia.
Qed.

Lemma ascii_upper_facts (c : char) :
  is_ascii c = true ->
  is_ascii (ascii_upper c) = true /\
  ascii_upper (ascii_upper c) = ascii_upper c /\
  isspace (ascii_upper c) = isspace c.
Proof.
  intros Hc.
  pose proof (ascii_cases (fun c => is_ascii (ascii_upper c)) eq_refl c Hc).
  pose proof (ascii_cases
    (fun c => N.eqb (ascii_upper (ascii_upper c)) (ascii_upper c)) eq_refl c Hc) as H2.
  pose proof (ascii_cases
    (fun c => Bool.eqb (isspace (ascii_upper c)) (isspace c)) eq_refl c Hc) as H3.
  simpl in *. apply N.eqb_eq in H2. apply Bool.eqb_prop in H3. auto.
Qed.

Lemma ascii_lower_facts (c : char) :
  is_ascii c = true ->
  is_ascii (ascii_lower c) = true /\
  ascii_lower (ascii_lower c) = ascii_lower c /\
  isspace (ascii_lower c) = isspace c.
Proof.
  intros Hc.
  pose proof (ascii_cases (fun c => is_ascii (ascii_lower c)) eq_refl c Hc).
  pose proof (ascii_cases
    (fun c => N.eqb (ascii_lower (ascii_lower c)) (ascii_lower c)) eq_refl c Hc) as H2.
  pose proof (ascii_cases
    (fun c => Bool.eqb (isspace (ascii_lower c)) (isspace c)) eq_refl c Hc) as H3.
  simpl in *. apply N.eqb_eq in H2. apply Bool.eqb_prop in H3. auto.
Qed.

Section AsciiNames.
Context `{CaseMapping}.
Hypothesis Hexact : ascii_exact.

Lemma lower_from_ascii (data r : str) (i : nat) :
  forallb is_ascii r = true -> lower_from data i r = List.map ascii_lower r.
Proof.
  revert i. induction r as [|c r IH]; intros i Hr; [reflexivity|].
  simpl in *. apply andb_prop in Hr as [Hc Hr].
  rewrite (proj2 Hexact _ _ _ Hc), IH by exact Hr. reflexivity.
Qed.

(** On ASCII words [capitalize] is: first character upper, others lower. *)
Lemma capitalize_ascii (c : char) (r : str) :
  forallb is_ascii (c :: r) = true ->
  capitalize (c :: r) = ascii_upper c :: List.map ascii_lower r.
Proof.
  simpl. intros [Hc Hr]%andb_prop. unfold capitalize.
  rewrite (proj1 Hexact _ Hc), lower_from_ascii by exact Hr. reflexivity.
Qed.

Lemma capitalize_ascii_word (w : str) :
  is_word w = true -> forallb is_ascii w = true ->
  is_word (capitalize w) = true /\
  forallb is_ascii (capitalize w) = true /\
  capitalize (capitalize w) = capitalize w.
Proof.
  destruct w as [|c r]; [discriminate|]. intros Hw Ha.
  rewrite (capitalize_ascii c r Ha).
  unfold is_word in Hw. simpl in Hw, Ha.
  apply andb_prop in Hw as [Hc Hr]. apply andb_prop in Ha as [Hac Har].
  destruct (ascii_upper_facts c Hac) as (Hu1 & Hu2 & Hu3).
  assert (Hrest : forallb is_ascii (List.map ascii_lower r) = true /\
                  forallb (fun c => negb (isspace c)) (List.map ascii_lower r) = true /\
                  List.map ascii_lower (List.map ascii_lower r) = List.map ascii_lower r).
  { clear - Hr Har. induction r as [|x r IH]; [auto|].
    simpl in *. apply andb_prop in Hr as [Hx Hr]. apply andb_prop in Har as [Hax Har].
    destruct (ascii_lower_facts x Hax) as (Hl1 & Hl2 & Hl3).
    destruct (IH Hr Har) as (I1 & I2 & I3).
    rewrite Hl1, Hl2, Hl3, Hx, I1, I2, I3. auto. }
  destruct Hrest as (R1 & R2 & R3).
  split; [|split].
  - unfold is_word. simpl. rewrite Hu3, Hc, R2. reflexivity.
  - simpl. rewrite Hu1, R1. reflexivity.
  - rewrite capitalize_ascii by (simpl; rewrite Hu1, R1; reflexivity).
    rewrite Hu2, R3. reflexivity.
Qed.
End AsciiNames.

Lemma basic_latin_ascii_exact : @ascii_exact basic_latin.
Proof.
  split.
  - intros c Hc. simpl. unfold latin_title.
    unfold is_ascii in Hc. apply N.ltb_lt in Hc.
    destruct (N.eqb_spec c 0x149); [lia|reflexivity].
  - reflexivity.
Qed.






(** ** The output file name *)

Lemma only_spaces_file_name (s : str) :
  only_spaces s = true ->
  replace_1char SPACE UNDERSCORE s
  = List.map (fun c => if isspace c then UNDERSCORE else c) s.
Proof.
  unfold only_spaces, replace_1char. induction s as [|c r IH]; simpl; [reflexivity|].
  intros [Hc Hr]%andb_prop. rewrite IH by exact Hr. f_equal.
  destruct (N.eqb_spec c SPACE) as [->|Hne]; [reflexivity|].
  destruct (isspace c); [|reflexivity].
  simpl in Hc. discriminate Hc.
Qed.

Lemma jpg_is_not_pdf (a b : str) : a ++ py ".jpg" <> b ++ py ".pdf".
Proof.
  intros E. apply (f_equal (@rev char)) in E.
  rewrite !rev_app_distr in E. discriminate E.
Qed.

Lemma temp_is_not_output (env : Env) (call : nat) (text : str) :
  temp_image_path env call <> output_pdf_name text.
Proof.
  unfold temp_image_path, output_pdf_name. rewrite app_assoc.
  apply jpg_is_not_pdf.
Qed.

(** ** The page exporter *)

#[local] Arguments fit_to_page : simpl never.
#[local] Arguments landscape : simpl never.
#[local] Arguments temp_image_path : simpl never.
#[local] Arguments output_pdf_name : simpl never.

(** A successful export: what it returns and what it leaves on disk. *)
Lemma convert_to_pdf_Some env call fs c text out fs' shown :
  convert_to_pdf env call fs c text = (Some out, fs', shown) ->
  exists img pl,
    co_store c !! co_copy c = Some img /\
    fit_to_page (landscape letter) (im_size img) = Some pl /\
    out = output_pdf_name text /\
    fs' !! out = Some (PdfFile (landscape letter) img pl).
Proof.
  unfold convert_to_pdf. intros E.
  destruct (co_store c !! co_copy c) as [img|]; [|discriminate].
  destruct (writable env (temp_image_path env call)); [|discriminate].
  simpl in E. rewrite lookup_insert_eq in E.
  destruct (fit_to_page (landscape letter) (im_size img)) as [pl|] eqn:Efit;
    [|discriminate].
  destruct (writable env (output_pdf_name text)); [|discriminate].
  simpl in E. exists img, pl.
  pose proof (temp_is_not_output env call text) as Hne.
  destruct (removable env (temp_image_path env call));
    injection E as <- <- <-; repeat split; try reflexivity; try exact Efit.
  - rewrite lookup_delete_ne by exact Hne. apply lookup_insert_eq.
  - apply lookup_insert_eq.
Qed.

(** Whatever the outcome, only the temporary file and the document change. *)
Lemma convert_to_pdf_frame env call fs c text (p : str) :
  p <> temp_image_path env call -> p <> output_pdf_name text ->
  snd (fst (convert_to_pdf env call fs c text)) !! p = fs !! p.
Proof.
  intros Ht Ho. unfold convert_to_pdf.
  destruct (co_store c !! co_copy c) as [img|]; [|reflexivity].
  destruct (writable env (temp_image_path env call)); [|reflexivity].
  simpl. rewrite lookup_insert_eq.
  destruct (fit_to_page (landscape letter) (im_size img)) as [pl|];
    [|simpl; now rewrite lookup_insert_ne].
  destruct (writable env (output_pdf_name text));
    [|simpl; now rewrite lookup_insert_ne].
  simpl. destruct (removable env (temp_image_path env call)); simpl.
  - rewrite lookup_delete_ne, !lookup_insert_ne; congruence.
  - rewrite !lookup_insert_ne; congruence.
Qed.

(** The outcome of an export, by what it needs. *)
Lemma convert_to_pdf_result env call fs c text img :
  co_store c !! co_copy c = Some img ->
  fst (fst (convert_to_pdf env call fs c text)) =
  if writable env (temp_image_path env call)
     && negb ((fst (im_size img) =? 0) || (snd (im_size img) =? 0))%Z
     && writable env (output_pdf_name text)
  then Some (output_pdf_name text) else None.
Proof.
  intros Himg. unfold convert_to_pdf. rewrite Himg.
  destruct (writable env (temp_image_path env call)); [|reflexivity].
  simpl. rewrite lookup_insert_eq.
  unfold fit_to_page. destruct (landscape letter) as [width height].
  destruct (im_size img) as [W H]. cbn [fst snd].
  destruct ((W =? 0)%Z || (H =? 0)%Z); [reflexivity|]. cbn [negb andb].
  destruct (writable env (output_pdf_name text)); [|reflexivity].
  simpl. destruct (removable env (temp_image_path env call)); reflexivity.
Qed.

Local Open Scope Q_scope.


Local Close Scope Q_scope.

(** ** The compositor *)

Lemma alter_last {A} (f : A -> A) (l : list A) (x : A) :
  alter f (length l) (l ++ [x]) = l ++ [f x].
Proof. rewrite <- (Nat.add_0_r (length l)), alter_app_r. reflexivity. Qed.

(** Opening and copying the template: two new objects after those of [h],
    holding the raster of the file. *)
Lemma open_and_copy (fs : filesystem) (h : store) (image_path : str) (tpl : image) :
  fs !! image_path = Some (ImageFile tpl) ->
  Image_open fs image_path h = Some (length h, h ++ [tpl]) /\
  Image_copy (length h) (h ++ [tpl]) = Some (S (length h), (h ++ [tpl]) ++ [tpl]).
Proof.
  intros E. unfold Image_open, Image_copy, alloc. rewrite E.
  rewrite list_lookup_middle by reflexivity.
  rewrite length_app, Nat.add_1_r. auto.
Qed.

Lemma draw_on_copy (env : Env) (h : store) (tpl v : image) f text position :
  draw_centered env (S (length h)) f text position ((h ++ [tpl]) ++ [v])
  = (h ++ [tpl]) ++ [add_text (centered_text env f text position) v].
Proof.
  unfold draw_centered, Draw_text.
  replace (S (length h)) with (length (h ++ [tpl]))
    by (rewrite length_app, Nat.add_1_r; reflexivity).
  apply alter_last.
Qed.

Lemma open_fails (fs : filesystem) (h : store) (image_path : str) :
  (forall tpl, fs !! image_path <> Some (ImageFile tpl)) ->
  Image_open fs image_path h = None.
Proof.
  intros Hno. unfold Image_open.
  destruct (fs !! image_path) as [[tpl| | |]|]; try reflexivity.
  now destruct (Hno tpl).
Qed.

Lemma VariantA_composite_image env fs h image_path text position font_path
    font_size tpl :
  fs !! image_path = Some (ImageFile tpl) ->
  VariantA.composite env fs h image_path text position font_path font_size
  = Some {| co_img := length h;
            co_copy := S (length h);
            co_store :=
              (h ++ [tpl])
              ++ [add_text
                    (centered_text env
                       (fst (VariantA.resolve_font env font_path font_size))
                       text position) tpl];
            co_printed := snd (VariantA.resolve_font env font_path font_size) |}.
Proof.
  intros E. unfold VariantA.composite.
  destruct (open_and_copy fs h image_path tpl E) as [-> ->].
  destruct (VariantA.resolve_font env font_path font_size) as [f out].
  rewrite draw_on_copy. reflexivity.
Qed.

Lemma VariantA_composite_no_image env fs h image_path text position font_path
    font_size :
  (forall tpl, fs !! image_path <> Some (ImageFile tpl)) ->
  VariantA.composite env fs h image_path text position font_path font_size = None.
Proof.
  intros Hno. unfold VariantA.composite. now rewrite open_fails.
Qed.

Lemma VariantB_composite_image env fs h image_path
    name name_position name_font_size
    event_name event_position event_font_size
    rank rank_position rank_font_size tpl :
  fs !! image_path = Some (ImageFile tpl) ->
    VariantB.composite env fs h image_path name name_position name_font_size
      event_name event_position event_font_size rank rank_position rank_font_size
    = Some {| co_img := length h;
              co_copy := S (length h);
              co_store :=
                (h ++ [tpl])
                ++ [add_text
                      (centered_text env
                         (font_of_candidate env (system_font env) rank_font_size)
                         rank rank_position)
                      (add_text
                         (centered_text env
                            (font_of_candidate env (system_font env) event_font_size)
                            event_name event_position)
                         (add_text
                            (centered_text env
                               (font_of_candidate env (system_font env) name_font_size)
                               name name_position) tpl))];
              co_printed :=
                (([] ++ snd (VariantB.load_font env name_font_size))
                 ++ snd (VariantB.load_font env event_font_size))
                ++ snd (VariantB.load_font env rank_font_size) |}.
Proof.
  intros E. unfold VariantB.composite.
  destruct (open_and_copy fs h image_path tpl E) as [-> ->].
  unfold VariantB.add_centered_text, VariantB.load_font, font_of_candidate.
  destruct (truetype_loads env (system_font env) name_font_size);
    destruct (truetype_loads env (system_font env) event_font_size);
    destruct (truetype_loads env (system_font env) rank_font_size);
    rewrite !draw_on_copy; cbn [fst snd]; reflexivity.
Qed.

Lemma VariantA_composite_Some env fs h image_path text position font_path
    font_size c :
  VariantA.composite env fs h image_path text position font_path font_size
  = Some c ->
  exists tpl,
    fs !! image_path = Some (ImageFile tpl) /\
    co_img c = length h /\
    co_copy c = S (length h) /\
    co_store c =
      (h ++ [tpl])
      ++ [add_text
            (centered_text env
               (fst (VariantA.resolve_font env font_path font_size))
               text position) tpl].
Proof.
  intros Hc.
  destruct (fs !! image_path) as [[tpl| | |]|] eqn:E;
    try (rewrite VariantA_composite_no_image in Hc; [discriminate|];
         intros tpl; rewrite E; discriminate).
  rewrite (VariantA_composite_image _ _ _ _ _ _ _ _ tpl E) in Hc.
  injection Hc as <-. exists tpl. auto.
Qed.

Lemma VariantB_composite_no_image env fs h image_path
    name name_position name_font_size
    event_name event_position event_font_size
    rank rank_position rank_font_size :
  (forall tpl, fs !! image_path <> Some (ImageFile tpl)) ->
  VariantB.composite env fs h image_path name name_position name_font_size
    event_name event_position event_font_size rank rank_position rank_font_size
  = None.
Proof.
  intros Hno. unfold VariantB.composite. now rewrite open_fails.
Qed.

Lemma VariantB_composite_Some env fs h image_path
    name name_position name_font_size
    event_name event_position event_font_size
    rank rank_position rank_font_size c :
  VariantB.composite env fs h image_path name name_position name_font_size
    event_name event_position event_font_size rank rank_position rank_font_size
  = Some c ->
  exists tpl,
    fs !! image_path = Some (ImageFile tpl) /\
    co_img c = length h /\
    co_copy c = S (length h) /\
    co_store c =
      (h ++ [tpl])
      ++ [add_text
            (centered_text env
               (font_of_candidate env (system_font env) rank_font_size)
               rank rank_position)
            (add_text
               (centered_text env
                  (font_of_candidate env (system_font env) event_font_size)
                  event_name event_position)
               (add_text
                  (centered_text env
                     (font_of_candidate env (system_font env) name_font_size)
                     name name_position) tpl))].
Proof.
  intros Hc.
  destruct (fs !! image_path) as [[tpl| | |]|] eqn:E;
    try (rewrite VariantB_composite_no_image in Hc; [discriminate|];
         intros tpl; rewrite E; discriminate).
  rewrite (VariantB_composite_image _ _ _ _ _ _ _ _ _ _ _ _ _ tpl E) in Hc.
  injection Hc as <-. exists tpl. auto.
Qed.

Lemma centered_text_centered (env : Env) (f : font) (text : str) (position : Q * Q) :
  centered env text position (centered_text env f text position).
Proof.
  unfold centered, centered_text.
  destruct (text_dimensions env f text) as [w ht] eqn:E.
  destruct position as [x y]. cbn [tc_x tc_y tc_text tc_font fst snd].
  rewrite E. cbn [fst]. repeat split; try reflexivity. field.
Qed.

Lemma centered_text_text (env : Env) (f : font) (text : str) (position : Q * Q) :
  tc_text (centered_text env f text position) = text.
Proof. apply centered_text_centered. Qed.

Lemma last_store (l : list image) (x : image) : (l ++ [x]) !! length l = Some x.
Proof. now apply list_lookup_middle. Qed.

Lemma copy_slot (h : store) (tpl v : image) :
  ((h ++ [tpl]) ++ [v]) !! S (length h) = Some v.
Proof.
  replace (S (length h)) with (length (h ++ [tpl]))
    by (rewrite length_app, Nat.add_1_r; reflexivity).
  apply last_store.
Qed.





(** ** The renderers *)

Lemma VariantA_render_Some env call fs image_path text position font_path
    font_size out fs' shown :
  VariantA.add_text_to_image_and_convert_to_pdf env call fs image_path text
    position font_path font_size = (Some out, fs', shown) ->
  out = output_pdf_name text /\
  exists img pl,
    fs' !! out = Some (PdfFile (landscape letter) img pl) /\
    In text (List.map tc_text (im_texts img)).
Proof.
  unfold VariantA.add_text_to_image_and_convert_to_pdf. intros E.
  destruct (VariantA.composite env fs [] image_path text position font_path
              font_size) as [c|] eqn:Ec; [|discriminate].
  apply VariantA_composite_Some in Ec as (tpl & _ & _ & Hcopy & Hstore).
  apply convert_to_pdf_Some in E as (img & pl & Himg & _ & -> & Hdoc).
  split; [reflexivity|]. exists img, pl. split; [exact Hdoc|].
  rewrite Hcopy, Hstore, copy_slot in Himg. injection Himg as <-. cbn [add_text im_texts].
  rewrite !List.map_app. cbn [List.map]. rewrite !centered_text_text. apply in_or_app. right. now left.
Qed.

Lemma VariantB_render_Some env call fs image_path
    name name_position name_font_size
    event_name event_position event_font_size
    rank rank_position rank_font_size out fs' shown :
  VariantB.add_texts_to_image_and_convert_to_pdf env call fs image_path
    name name_position name_font_size
    event_name event_position event_font_size
    rank rank_position rank_font_size = (Some out, fs', shown) ->
  out = output_pdf_name name /\
  exists img pl,
    fs' !! out = Some (PdfFile (landscape letter) img pl) /\
    In name (List.map tc_text (im_texts img)).
Proof.
  unfold VariantB.add_texts_to_image_and_convert_to_pdf. intros E.
  destruct (VariantB.composite env fs [] image_path name name_position
              name_font_size event_name event_position event_font_size
              rank rank_position rank_font_size) as [c|] eqn:Ec; [|discriminate].
  apply VariantB_composite_Some in Ec as (tpl & _ & _ & Hcopy & Hstore).
  apply convert_to_pdf_Some in E as (img & pl & Himg & _ & -> & Hdoc).
  split; [reflexivity|]. exists img, pl. split; [exact Hdoc|].
  rewrite Hcopy, Hstore, copy_slot in Himg. injection Himg as <-. cbn [add_text im_texts].
  rewrite !List.map_app. cbn [List.map]. rewrite !centered_text_text. apply in_or_app. left.
  apply in_or_app. left. apply in_or_app. right. now left.
Qed.

Lemma VariantA_render_result env call fs image_path text position font_path
    font_size :
  fst (fst (VariantA.add_text_to_image_and_convert_to_pdf env call fs image_path
              text position font_path font_size))
  = if renderable env call fs image_path text
    then Some (output_pdf_name text) else None.
Proof.
  unfold VariantA.add_text_to_image_and_convert_to_pdf, renderable.
  destruct (fs !! image_path) as [[tpl| | |]|] eqn:E;
    try (rewrite VariantA_composite_no_image;
         [reflexivity | intros tpl; rewrite E; discriminate]).
  rewrite (VariantA_composite_image _ _ _ _ _ _ _ _ tpl E).
  erewrite convert_to_pdf_result by apply copy_slot. reflexivity.
Qed.

Lemma VariantB_render_result env call fs image_path
    name name_position name_font_size
    event_name event_position event_font_size
    rank rank_position rank_font_size :
  fst (fst (VariantB.add_texts_to_image_and_convert_to_pdf env call fs image_path
              name name_position name_font_size
              event_name event_position event_font_size
              rank rank_position rank_font_size))
  = if renderable env call fs image_path name
    then Some (output_pdf_name name) else None.
Proof.
  unfold VariantB.add_texts_to_image_and_convert_to_pdf, renderable.
  destruct (fs !! image_path) as [[tpl| | |]|] eqn:E;
    try (rewrite VariantB_composite_no_image;
         [reflexivity | intros tpl; rewrite E; discriminate]).
  rewrite (VariantB_composite_image _ _ _ _ _ _ _ _ _ _ _ _ _ tpl E).
  erewrite convert_to_pdf_result by apply copy_slot. reflexivity.
Qed.

Lemma VariantA_render_frame env call fs image_path text position font_path
    font_size (p : str) :
  p <> temp_image_path env call -> p <> output_pdf_name text ->
  snd (fst (VariantA.add_text_to_image_and_convert_to_pdf env call fs image_path
              text position font_path font_size)) !! p = fs !! p.
Proof.
  intros Ht Ho. unfold VariantA.add_text_to_image_and_convert_to_pdf.
  destruct (VariantA.composite _ _ _ _ _ _ _ _); [|reflexivity].
  now apply convert_to_pdf_frame.
Qed.

Lemma VariantB_render_frame env call fs image_path
    name name_position name_font_size
    event_name event_position event_font_size
    rank rank_position rank_font_size (p : str) :
  p <> temp_image_path env call -> p <> output_pdf_name name ->
  snd (fst (VariantB.add_texts_to_image_and_convert_to_pdf env call fs image_path
              name name_position name_font_size
              event_name event_position event_font_size
              rank rank_position rank_font_size)) !! p = fs !! p.
Proof.
  intros Ht Ho. unfold VariantB.add_texts_to_image_and_convert_to_pdf.
  destruct (VariantB.composite _ _ _ _ _ _ _ _ _ _ _ _ _); [|reflexivity].
  now apply convert_to_pdf_frame.
Qed.

(** C6, as amended. The file name is the trimmed text with every space
    character (U+0020) replaced by an underscore and [.pdf] appended; when the
    trimmed text has no other whitespace this is the name the design document
    describes. A successful render leaves under that name the document made
    from its own raster, whatever the file system held there before: of two
    items with the same name the later output replaces the earlier. *)
Theorem output_file_name (env : Env) (call : nat) (fs : filesystem) :
  (forall text,
     only_spaces (strip text) = true ->
     output_pdf_name text = spec_file_name text) /\
  (forall image_path text position font_path font_size out fs' shown,
     VariantA.add_text_to_image_and_convert_to_pdf env call fs image_path text
       position font_path font_size = (Some out, fs', shown) ->
     out = output_pdf_name text /\
     exists img pl,
       fs' !! out = Some (PdfFile (landscape letter) img pl) /\
       In text (List.map tc_text (im_texts img))) /\
  (forall image_path name name_position name_font_size event_name
          event_position event_font_size rank rank_position rank_font_size
          out fs' shown,
     VariantB.add_texts_to_image_and_convert_to_pdf env call fs image_path
       name name_position name_font_size
       event_name event_position event_font_size
       rank rank_position rank_font_size = (Some out, fs', shown) ->
     out = output_pdf_name name /\
     exists img pl,
       fs' !! out = Some (PdfFile (landscape letter) img pl) /\
       In name (List.map tc_text (im_texts img))).
Proof.
  split; [|split].
  - intros text Hsp. unfold output_pdf_name, spec_file_name.
    rewrite <- strip_spec_trim, only_spaces_file_name by exact Hsp. reflexivity.
  - intros. eapply VariantA_render_Some; eassumption.
  - intros. eapply VariantB_render_Some; eassumption.
Qed.

Lemma output_file_name_witness :
  only_spaces (strip (py " Jane Doe ")) = true /\
  output_pdf_name (py " Jane Doe ") = spec_file_name (py " Jane Doe ") /\
  exists out fs' shown,
    VariantA.add_text_to_image_and_convert_to_pdf demo_env 1
      (<[py "Jane_Doe.pdf" := OtherFile]> demo_fs)
      (py "cert.jpg") (py "Jane Doe") (500%Q, 300%Q) None 36
    = (Some out, fs', shown) /\
    out = py "Jane_Doe.pdf" /\
    exists img pl,
      fs' !! out = Some (PdfFile (landscape letter) img pl) /\
      In (py "Jane Doe") (List.map tc_text (im_texts img)).
Proof.
  pose proof (output_file_name demo_env 1
                (<[py "Jane_Doe.pdf" := OtherFile]> demo_fs)) as (H1 & H2 & _).
  split; [reflexivity|]. split; [apply H1; reflexivity|].
  destruct (VariantA.add_text_to_image_and_convert_to_pdf demo_env 1
              (<[py "Jane_Doe.pdf" := OtherFile]> demo_fs)
              (py "cert.jpg") (py "Jane Doe") (500%Q, 300%Q) None 36)
    as [[[out|] fs'] shown] eqn:E; [|vm_compute in E; discriminate E].
  destruct (H2 _ _ _ _ _ _ _ _ E) as (Hout & Hdoc).
  exists out, fs', shown. split; [reflexivity|]. split; [exact Hout|exact Hdoc].
Defined.

(** C6, as stated, fails: a tab inside the text is whitespace and is not
    replaced. *)
Lemma file_name_keeps_tab :
  output_pdf_name [0x41; 0x09; 0x42] <> spec_file_name [0x41; 0x09; 0x42].
Proof. vm_compute. discriminate. Qed.


(** C9. The texts are drawn on a copy: an object made for this render,
    other than the one opened from the template. After the drawing the
    template object still holds the raster decoded from the file, and every
    object but the copy is as it was. On disk a render changes nothing
    but its temporary file and its document. *)
Theorem template_not_mutated (env : Env) (fs : filesystem) (h : store)
    (image_path : str) :
  (forall text position font_path font_size c,
     VariantA.composite env fs h image_path text position font_path font_size
     = Some c ->
     exists tpl,
       fs !! image_path = Some (ImageFile tpl) /\
       co_store c !! co_img c = Some tpl /\
       h !! co_copy c = None /\ co_copy c <> co_img c /\
       forall id, id <> co_copy c -> co_store c !! id = (h ++ [tpl]) !! id) /\
  (forall name name_position name_font_size event_name event_position
          event_font_size rank rank_position rank_font_size c,
     VariantB.composite env fs h image_path name name_position name_font_size
       event_name event_position event_font_size
       rank rank_position rank_font_size = Some c ->
     exists tpl,
       fs !! image_path = Some (ImageFile tpl) /\
       co_store c !! co_img c = Some tpl /\
       h !! co_copy c = None /\ co_copy c <> co_img c /\
       forall id, id <> co_copy c -> co_store c !! id = (h ++ [tpl]) !! id) /\
  (forall call text position font_path font_size p,
     p <> temp_image_path env call -> p <> output_pdf_name text ->
     snd (fst (VariantA.add_text_to_image_and_convert_to_pdf env call fs
                 image_path text position font_path font_size)) !! p = fs !! p) /\
  (forall call name name_position name_font_size event_name event_position
          event_font_size rank rank_position rank_font_size p,
     p <> temp_image_path env call -> p <> output_pdf_name name ->
     snd (fst (VariantB.add_texts_to_image_and_convert_to_pdf env call fs
                 image_path name name_position name_font_size
                 event_name event_position event_font_size
                 rank rank_position rank_font_size)) !! p = fs !! p).
Proof.
  assert (Hstore : forall (tpl v : image),
    ((h ++ [tpl]) ++ [v]) !! length h = Some tpl /\
    h !! S (length h) = None /\ S (length h) <> length h /\
    forall id, id <> S (length h) ->
               ((h ++ [tpl]) ++ [v]) !! id = (h ++ [tpl]) !! id).
  { intros tpl v. split; [|split; [|split]].
    - rewrite lookup_app_l by (rewrite length_app; simpl; lia). apply last_store.
    - apply lookup_ge_None. lia.
    - lia.
    - intros id Hid. destruct (decide (id < S (length h))%nat) as [Hlt|Hge].
      + apply lookup_app_l. rewrite length_app. simpl. lia.
      + rewrite !lookup_ge_None_2; [reflexivity| |];
          rewrite ?length_app; simpl; lia. }
  split; [|split; [|split]].
  - intros text position font_path font_size c Hc.
    apply VariantA_composite_Some in Hc as (tpl & E & -> & -> & ->).
    exists tpl. split; [exact E|]. apply Hstore.
  - intros name np ns ev ep es rk rp rs c Hc.
    apply VariantB_composite_Some in Hc as (tpl & E & -> & -> & ->).
    exists tpl. split; [exact E|]. apply Hstore.
  - intros. now apply VariantA_render_frame.
  - intros. now apply VariantB_render_frame.
Qed.

Lemma template_not_mutated_witness :
  exists c tpl,
    VariantA.composite demo_env demo_fs [] (py "cert.jpg") (py "Jane Doe")
      (500%Q, 300%Q) None 36 = Some c /\
    demo_fs !! py "cert.jpg" = Some (ImageFile tpl) /\
    co_store c !! co_img c = Some tpl /\
    co_copy c <> co_img c.
Proof.
  destruct (VariantA.composite demo_env demo_fs [] (py "cert.jpg") (py "Jane Doe")
              (500%Q, 300%Q) None 36) as [c|] eqn:Hc;
    [|vm_compute in Hc; discriminate Hc].
  destruct (proj1 (template_not_mutated demo_env demo_fs [] (py "cert.jpg"))
              _ _ _ _ _ Hc) as (tpl & H1 & H2 & _ & H4 & _).
  exists c, tpl. auto.
Defined.

(** ** The batch driver *)

Section BatchFacts.
Context `{CaseMapping}.
Variable render : nat -> filesystem -> str -> option str * filesystem * list printed.
Variable extra : list printed.

(** One more item rendered and one more in the tally for every name,
    whatever the renderer returns. *)
Lemma batch_loop_tally (total_names : nat) (names : list str) :
  forall (i : nat) (st : batch_result),
    let st' := batch_loop render extra total_names i names st in
    br_rendered st' = br_rendered st ++ List.map title_case_name names /\
    (br_successful st' + br_failed st'
     = br_successful st + br_failed st + length names)%nat.
Proof.
  induction names as [|raw_name rest IH]; intros i st; simpl.
  - rewrite app_nil_r. split; [reflexivity|lia].
  - destruct (render i (br_fs st) (title_case_name raw_name)) as [[result fs'] out].
    destruct (truthy result);
      match goal with
      | |- context [batch_loop _ _ _ _ _ ?s] => destruct (IH (S i) s) as [-> ->]
      end; simpl; rewrite <- app_assoc; split; try reflexivity; lia.
Qed.

Lemma read_names_text (fs : filesystem) (names_file : str) (lines : list str) :
  fs !! names_file = Some (TextFile lines) ->
  read_names fs names_file
  = Some (List.map strip (List.filter (fun line => nonempty (strip line)) lines)).
Proof. intros E. unfold read_names. now rewrite E. Qed.

Lemma read_names_unreadable (fs : filesystem) (names_file : str) :
  (forall lines, fs !! names_file <> Some (TextFile lines)) ->
  read_names fs names_file = None.
Proof.
  intros Hno. unfold read_names.
  destruct (fs !! names_file) as [[| |lines|]|]; try reflexivity.
  now destruct (Hno lines).
Qed.

Lemma process_names_tally (fs : filesystem) (names_file : str) (lines : list str) :
  fs !! names_file = Some (TextFile lines) ->
  tally_of lines (process_names render extra fs names_file).
Proof.
  intros E. unfold process_names, tally_of.
  rewrite (read_names_text _ _ _ E).
  set (names := List.filter (fun line => nonempty (strip line)) lines).
  match goal with
  | |- context [batch_loop _ _ ?t ?i ?n ?s] =>
      destruct (batch_loop_tally t n i s) as [Hr Ht]
  end.
  cbn [br_rendered br_successful br_failed br_printed] in *.
  rewrite length_map in *. rewrite Hr, Ht, List.map_map.
  split; [reflexivity|]. split; [reflexivity|]. apply last_snoc.
Qed.

Lemma process_names_aborted (fs : filesystem) (names_file : str) :
  (forall lines, fs !! names_file <> Some (TextFile lines)) ->
  process_names render extra fs names_file = aborted fs.
Proof.
  intros Hno. unfold process_names. now rewrite read_names_unreadable.
Qed.
End BatchFacts.



(** C8. If the names file cannot be read the driver reports the error and
    stops: no render is made, both counters are zero, the file system is as
    it was. *)
Theorem unreadable_names_abort `{CaseMapping} (env : Env) (fs : filesystem)
    (names_file : str) :
  (forall lines, fs !! names_file <> Some (TextFile lines)) ->
  (forall image_path position font_path font_size,
     VariantA.process_names_from_file env fs image_path names_file position
       font_path font_size = aborted fs) /\
  (forall image_path name_position name_font_size event_name event_position
          event_font_size rank rank_position rank_font_size,
     VariantB.process_names_from_file env fs image_path names_file
       name_position name_font_size event_name event_position
       event_font_size rank rank_position rank_font_size = aborted fs).
Proof.
  intros Hno. split; intros; now apply process_names_aborted.
Qed.

Lemma unreadable_names_abort_witness :
  VariantA.process_names_from_file demo_env demo_fs (py "cert.jpg")
    (py "missing.txt") (500%Q, 300%Q) None 36 = aborted demo_fs.
Proof.
  apply (unreadable_names_abort demo_env demo_fs (py "missing.txt")).
  intros lines E. vm_compute in E. discriminate E.
Defined.

(** ** The command line *)

Lemma VariantA_main_usage `{CaseMapping} env fs (argv : list str) :
  (length argv < 4)%nat -> VariantA.main env fs argv = UsageShown.
Proof.
  intros Hlen. unfold VariantA.main.
  destruct (Nat.ltb_spec (length argv) 4); [reflexivity|lia].
Qed.

Lemma VariantB_main_usage `{CaseMapping} env fs (argv : list str) :
  (length argv < 11)%nat -> VariantB.main env fs argv = UsageShown.
Proof.
  intros Hlen. unfold VariantB.main.
  destruct (Nat.ltb_spec (length argv) 11); [reflexivity|lia].
Qed.

(** C5 at the failing inputs. With three arguments in variant A (the fourth,
    [y_position], missing) and with ten in variant B (the last three
    missing), [main] passes its length test and an exception leaves it:
    no usage message, exit status 1. *)
Theorem main_missing_argument_raises `{CaseMapping} (env : Env) (fs : filesystem) :
  (exists e,
     VariantA.main env fs [py "script.py"; py "cert.jpg"; py "names.txt"; py "500"]
     = Uncaught e) /\
  (exists e,
     VariantB.main env fs
       [py "script.py"; py "cert.jpg"; py "names.txt"; py "500"; py "300";
        py "36"; py "Science Fair"; py "500"; py "200"; py "24"; py "First"]
     = Uncaught e).
Proof.
  split.
  - unfold VariantA.main, VariantA.parse_args, int. cbn -[py].
    destruct (py_int env (py "500")); cbn; eauto.
  - unfold VariantB.main, VariantB.parse_args, int. cbn -[py].
    repeat match goal with
           | |- context [py_int env ?s] => destruct (py_int env s); cbn -[py]
           end; eauto.
Qed.

(** ** Names that come from the normalizer *)

Lemma word_only_spaces (w : str) : is_word w = true -> only_spaces w = true.
Proof.
  unfold is_word, only_spaces. intros [_ Hw]%andb_prop.
  induction w as [|c r IH]; [reflexivity|]. simpl in *.
  apply andb_prop in Hw as [Hc Hr]. rewrite (IH Hr).
  apply negb_true_iff in Hc. rewrite Hc. reflexivity.
Qed.

Lemma join_only_spaces (ws : list str) :
  Forall (fun w => is_word w = true) ws -> only_spaces (join [SPACE] ws) = true.
Proof.
  induction 1 as [|w ws Hw Hws IH]; [reflexivity|].
  destruct ws as [|w2 ws]; [now apply word_only_spaces|].
  change (join [SPACE] (w :: w2 :: ws)) with (w ++ SPACE :: join [SPACE] (w2 :: ws)).
  pose proof (word_only_spaces w Hw) as Hw'.
  unfold only_spaces in *. rewrite forallb_app, Hw'. cbn [forallb andb].
  rewrite IH. reflexivity.
Qed.

(** In the batch the text of a render is a normalized name: words joined by
    single spaces. For such a text the file name is the one the design
    document describes. *)
Lemma normalized_file_name `{CaseMapping} (raw_name : str) :
  ascii_exact -> forallb is_ascii raw_name = true ->
  output_pdf_name (title_case_name raw_name)
  = spec_file_name (title_case_name raw_name).
Proof.
  intros Hexact Hs. unfold output_pdf_name, spec_file_name.
  rewrite <- strip_spec_trim, only_spaces_file_name; [reflexivity|].
  apply strip_forallb. apply join_only_spaces. apply Forall_map.
  eapply Forall_impl; [apply (split_Forall is_ascii), strip_forallb, Hs|].
  intros w [Hw Ha]. now apply capitalize_ascii_word.
Qed.

(** ** Examples *)

Example title_case_jane :
  title_case_name (py "  jANE   doe ") = py "Jane Doe".
Proof. reflexivity. Qed.

Example split_example :
  split (py " a  bc ") = [py "a"; py "bc"].
Proof. reflexivity. Qed.

Example file_name_jane :
  output_pdf_name (py "Jane Doe") = py "Jane_Doe.pdf".
Proof. reflexivity. Qed.

(** The names file of the example: two names and a blank line. Both renders
    succeed, each in the built-in face. *)
Example demo_batch :
  let r := VariantA.process_names_from_file demo_env demo_fs (py "cert.jpg")
             (py "names.txt") (500%Q, 300%Q) None 36 in
  br_successful r = 2%nat /\ br_failed r = 0%nat /\
  br_rendered r = [py "Jane Doe"; py "John Smith"] /\
  is_Some (br_fs r !! py "Jane_Doe.pdf") /\
  is_Some (br_fs r !! py "John_Smith.pdf").
Proof. vm_compute. repeat split; eauto. Qed.

(** A template that is missing fails every item, and every item is tried. *)
Example demo_batch_no_template :
  let r := VariantA.process_names_from_file demo_env demo_fs (py "none.jpg")
             (py "names.txt") (500%Q, 300%Q) None 36 in
  br_successful r = 0%nat /\ br_failed r = 2%nat /\
  br_rendered r = [py "Jane Doe"; py "John Smith"].
Proof. vm_compute. repeat split. Qed.

Example main_three_arguments :
  VariantA.main demo_env demo_fs
    [py "script.py"; py "cert.jpg"; py "names.txt"; py "500"]
  = Uncaught IndexError.
Proof. reflexivity. Qed.

Example main_ten_arguments :
  VariantB.main demo_env demo_fs
    [py "script.py"; py "cert.jpg"; py "names.txt"; py "500"; py "300";
     py "36"; py "Science Fair"; py "500"; py "200"; py "24"; py "First"]
  = Uncaught IndexError.
Proof. reflexivity. Qed.

Example main_two_arguments :
  VariantA.main demo_env demo_fs [py "script.py"; py "cert.jpg"; py "names.txt"]
  = UsageShown.
Proof. reflexivity. Qed.

(** * Further properties of the code *)

(** ** The normalizer *)

Lemma title_case_name_tokens `{CaseMapping} (s : str) :
  title_case_name s = join [SPACE] (List.map capitalize (split s)).
Proof. unfold title_case_name. now rewrite split_strip. Qed.

Lemma split_scan_map (f : char -> char) (s : str) (cur : option str) :
  (forall c, In c s -> isspace (f c) = isspace c) ->
  split_scan (option_map (List.map f) cur) (List.map f s)
  = List.map (List.map f) (split_scan cur s).
Proof.
  revert cur. induction s as [|c r IH]; intros cur Hf.
  - destruct cur as [w|]; simpl; [rewrite List.map_rev|]; reflexivity.
  - simpl. rewrite (Hf c) by now left.
    assert (Hr : forall x, In x r -> isspace (f x) = isspace x)
      by (intros x Hx; apply Hf; now right).
    destruct (isspace c); destruct cur as [w|]; simpl.
    + rewrite List.map_rev. f_equal. apply (IH None Hr).
    + apply (IH None Hr).
    + apply (IH (Some (c :: w)) Hr).
    + apply (IH (Some [c]) Hr).
Qed.

Lemma forallb_In {A} (P : A -> bool) (l : list A) (x : A) :
  forallb P l = true -> In x l -> P x = true.
Proof. intros Hl. rewrite forallb_forall in Hl. apply Hl. Qed.

Lemma ascii_case_round (c : char) :
  is_ascii c = true ->
  ascii_upper (ascii_lower c) = ascii_upper c /\
  ascii_lower (ascii_upper c) = ascii_lower c.
Proof.
  intros Hc.
  pose proof (ascii_cases
    (fun c => N.eqb (ascii_upper (ascii_lower c)) (ascii_upper c)) eq_refl c Hc) as H1.
  pose proof (ascii_cases
    (fun c => N.eqb (ascii_lower (ascii_upper c)) (ascii_lower c)) eq_refl c Hc) as H2.
  simpl in *. apply N.eqb_eq in H1. apply N.eqb_eq in H2. auto.
Qed.

Lemma map_case_facts (r : str) :
  forallb is_ascii r = true ->
  forallb is_ascii (List.map ascii_lower r) = true /\
  forallb is_ascii (List.map ascii_upper r) = true /\
  List.map ascii_lower (List.map ascii_lower r) = List.map ascii_lower r /\
  List.map ascii_lower (List.map ascii_upper r) = List.map ascii_lower r.
Proof.
  induction r as [|x r IH]; [auto|]. simpl.
  intros [Hx Hr]%andb_prop. destruct (IH Hr) as (I1 & I2 & I3 & I4).
  destruct (ascii_lower_facts x Hx) as (L1 & L2 & _).
  destruct (ascii_upper_facts x Hx) as (U1 & _ & _).
  destruct (ascii_case_round x Hx) as (_ & R2).
  rewrite L1, U1, I1, I2, I3, I4, L2, R2. auto.
Qed.

Section AsciiCase.
Context `{CaseMapping}.
Hypothesis Hexact : ascii_exact.

Lemma capitalize_map_lower (w : str) :
  forallb is_ascii w = true ->
  capitalize (List.map ascii_lower w) = capitalize w /\
  capitalize (List.map ascii_upper w) = capitalize w.
Proof.
  destruct w as [|c r]; [auto|]. intros Ha.
  destruct (map_case_facts (c :: r) Ha) as (A1 & A2 & _ & _).
  simpl List.map in *.
  rewrite !(capitalize_ascii Hexact) by assumption.
  simpl in Ha. apply andb_prop in Ha as [Hc Hr].
  destruct (map_case_facts r Hr) as (_ & _ & M3 & M4).
  destruct (ascii_case_round c Hc) as (R1 & _).
  destruct (ascii_upper_facts c Hc) as (_ & U2 & _).
  rewrite R1, U2, M3, M4. auto.
Qed.

Lemma title_case_name_map (f : char -> char) (s : str) :
  forallb is_ascii s = true ->
  (forall c, is_ascii c = true -> isspace (f c) = isspace c) ->
  (forall w, forallb is_ascii w = true ->
             capitalize (List.map f w) = capitalize w) ->
  title_case_name (List.map f s) = title_case_name s.
Proof.
  intros Ha Hsp Hcap. rewrite !title_case_name_tokens. unfold split.
  change None with (option_map (List.map f) None).
  rewrite split_scan_map
    by (intros c Hc; apply Hsp; exact (forallb_In _ _ _ Ha Hc)).
  rewrite List.map_map. f_equal. apply map_ext_Forall.
  eapply Forall_impl; [apply (split_Forall is_ascii), Ha|].
  intros w [_ Hw]. now apply Hcap.
Qed.
End AsciiCase.

Lemma split_normalized `{CaseMapping} (s : str) :
  ascii_exact -> forallb is_ascii s = true ->
  split (title_case_name s) = List.map capitalize (split s).
Proof.
  intros Hexact Ha. rewrite title_case_name_tokens. apply split_join.
  apply Forall_map.
  eapply Forall_impl; [apply (split_Forall is_ascii), Ha|].
  intros w [Hw Haw]. now apply capitalize_ascii_word.
Qed.

(** X1. On ASCII input the normalizer keeps the words: splitting its result
    gives the words of the input, capitalized, as many and in the same
    order. *)
Theorem normalizer_keeps_words `{CaseMapping} (s : str) :
  ascii_exact -> forallb is_ascii s = true ->
  split (title_case_name s) = List.map capitalize (split s) /\
  length (split (title_case_name s)) = length (split s).
Proof.
  intros Hexact Ha.
  pose proof (split_normalized s Hexact Ha) as E.
  split; [exact E|]. rewrite E. apply length_map.
Qed.

Lemma normalizer_keeps_words_witness :
  split (title_case_name (py " mARY  ann LEE "))
  = List.map capitalize (split (py " mARY  ann LEE ")) /\
  length (split (title_case_name (py " mARY  ann LEE "))) = 3%nat.
Proof.
  assert (Ha : forallb is_ascii (py " mARY  ann LEE ") = true)
    by (vm_compute; reflexivity).
  destruct (normalizer_keeps_words (py " mARY  ann LEE ")
              basic_latin_ascii_exact Ha) as [E L].
  split; [exact E|]. rewrite L. vm_compute. reflexivity.
Defined.

(** X2. On ASCII input the normalizer does not see the case of the input:
    the input put in lower case, or in upper case, has the same result. *)
Theorem normalizer_ignores_case `{CaseMapping} (s : str) :
  ascii_exact -> forallb is_ascii s = true ->
  title_case_name (List.map ascii_lower s) = title_case_name s /\
  title_case_name (List.map ascii_upper s) = title_case_name s.
Proof.
  intros Hexact Ha. split; apply title_case_name_map; try exact Ha.
  - intros c Hc. apply ascii_lower_facts, Hc.
  - intros w Hw. now apply capitalize_map_lower.
  - intros c Hc. apply ascii_upper_facts, Hc.
  - intros w Hw. now apply capitalize_map_lower.
Qed.

Lemma normalizer_ignores_case_witness :
  title_case_name (List.map ascii_lower (py "jAnE dOe"))
  = title_case_name (py "jAnE dOe") /\
  title_case_name (List.map ascii_upper (py "jAnE dOe"))
  = title_case_name (py "jAnE dOe").
Proof.
  apply (normalizer_ignores_case (py "jAnE dOe")).
  - exact basic_latin_ascii_exact.
  - vm_compute. reflexivity.
Defined.

(** X3. The normalizer sees the words of its input only: two inputs with the
    same words, however the whitespace around and between them, have the
    same result. This holds for any case tables. *)
Theorem normalizer_ignores_spacing `{CaseMapping} (a b : str) :
  split a = split b -> title_case_name a = title_case_name b.
Proof. intros E. rewrite !title_case_name_tokens, E. reflexivity. Qed.

Lemma normalizer_ignores_spacing_witness :
  title_case_name ([0x09] ++ py "jane" ++ [0x09; 0xA0] ++ py "doe  ")
  = title_case_name (py "jane doe").
Proof. apply normalizer_ignores_spacing. vm_compute. reflexivity. Defined.

(** ** One render *)

(** The ways an export ends. *)
Lemma convert_to_pdf_cases env call fs c text img :
  co_store c !! co_copy c = Some img ->
  let temp := temp_image_path env call in
  let out := output_pdf_name text in
  let r := convert_to_pdf env call fs c text in
  (writable env temp = false /\ r = (None, fs, co_printed c ++ [AnErrorOccurred])) \/
  (writable env temp = true /\
   (fit_to_page (landscape letter) (im_size img) = None \/ writable env out = false) /\
   r = (None, <[temp := ImageFile img]> fs, co_printed c ++ [AnErrorOccurred])) \/
  (exists pl,
     writable env temp = true /\ writable env out = true /\
     fit_to_page (landscape letter) (im_size img) = Some pl /\
     ((removable env temp = true /\
       r = (Some out,
            delete temp (<[out := PdfFile (landscape letter) img pl]>
                           (<[temp := ImageFile img]> fs)),
            co_printed c)) \/
      (removable env temp = false /\
       r = (Some out,
            <[out := PdfFile (landscape letter) img pl]>
              (<[temp := ImageFile img]> fs),
            co_printed c ++ [WarningCouldNotDelete temp])))).
Proof.
  intros Himg. cbv zeta. unfold convert_to_pdf. rewrite Himg.
  destruct (writable env (temp_image_path env call)); [|now left].
  right. simpl. rewrite lookup_insert_eq.
  destruct (fit_to_page (landscape letter) (im_size img)) as [pl|]; [|left; auto].
  destruct (writable env (output_pdf_name text)); [|left; auto].
  right. exists pl. simpl.
  destruct (removable env (temp_image_path env call)); auto 10.
Qed.


Lemma add_text_drawn_on (tpl img : image) (texts : list str) (cmd : text_cmd) :
  drawn_on tpl texts img -> drawn_on tpl (texts ++ [tc_text cmd]) (add_text cmd img).
Proof.
  intros (Hs & Hp & Ht). unfold drawn_on. simpl.
  rewrite List.map_app, Ht, <- app_assoc. auto.
Qed.

Lemma drawn_on_refl (tpl : image) : drawn_on tpl [] tpl.
Proof. unfold drawn_on. now rewrite app_nil_r. Qed.

(** A render of variant A: the template does not open and nothing happens,
    or the export runs on the template with the text drawn on it. *)
Lemma VariantA_render_cases env call fs image_path text position font_path
    font_size :
  let r := VariantA.add_text_to_image_and_convert_to_pdf env call fs image_path
             text position font_path font_size in
  ((forall tpl, fs !! image_path <> Some (ImageFile tpl)) /\
   r = (None, fs, [AnErrorOccurred])) \/
  (exists tpl c img,
     fs !! image_path = Some (ImageFile tpl) /\
     r = convert_to_pdf env call fs c text /\
     co_store c !! co_copy c = Some img /\
     drawn_on tpl [text] img /\
     forallb font_message (co_printed c) = true).
Proof.
  cbv zeta. unfold VariantA.add_text_to_image_and_convert_to_pdf.
  destruct (fs !! image_path) as [[tpl| | |]|] eqn:E;
    try (left; split; [intros tpl; congruence |];
         rewrite VariantA_composite_no_image;
         [reflexivity | intros tpl; rewrite E; discriminate]).
  right. rewrite (VariantA_composite_image _ _ _ _ _ _ _ _ tpl E).
  eexists tpl, _, _. split; [reflexivity|]. split; [reflexivity|].
  cbn [co_store co_copy co_printed]. split; [apply copy_slot|]. split.
  - rewrite <- (centered_text_text env
                 (fst (VariantA.resolve_font env font_path font_size))
                 text position) at 1.
    apply (add_text_drawn_on tpl tpl []), drawn_on_refl.
  - unfold VariantA.resolve_font.
    destruct (truthy font_path && path_exists env (default [] font_path));
      destruct (truetype_loads env _ font_size); reflexivity.
Qed.

Lemma VariantB_render_cases env call fs image_path
    name name_position name_font_size
    event_name event_position event_font_size
    rank rank_position rank_font_size :
  let r := VariantB.add_texts_to_image_and_convert_to_pdf env call fs image_path
             name name_position name_font_size
             event_name event_position event_font_size
             rank rank_position rank_font_size in
  ((forall tpl, fs !! image_path <> Some (ImageFile tpl)) /\
   r = (None, fs, [AnErrorOccurred])) \/
  (exists tpl c img,
     fs !! image_path = Some (ImageFile tpl) /\
     r = convert_to_pdf env call fs c name /\
     co_store c !! co_copy c = Some img /\
     drawn_on tpl [name; event_name; rank] img /\
     forallb font_message (co_printed c) = true).
Proof.
  cbv zeta. unfold VariantB.add_texts_to_image_and_convert_to_pdf.
  destruct (fs !! image_path) as [[tpl| | |]|] eqn:E;
    try (left; split; [intros tpl; congruence |];
         rewrite VariantB_composite_no_image;
         [reflexivity | intros tpl; rewrite E; discriminate]).
  right. rewrite (VariantB_composite_image _ _ _ _ _ _ _ _ _ _ _ _ _ tpl E).
  eexists tpl, _, _. split; [reflexivity|]. split; [reflexivity|].
  cbn [co_store co_copy co_printed]. split; [apply copy_slot|]. split.
  - pose proof (drawn_on_refl tpl) as H0.
    apply (add_text_drawn_on _ _ _
             (centered_text env
                (font_of_candidate env (system_font env) name_font_size)
                name name_position)) in H0.
    apply (add_text_drawn_on _ _ _
             (centered_text env
                (font_of_candidate env (system_font env) event_font_size)
                event_name event_position)) in H0.
    apply (add_text_drawn_on _ _ _
             (centered_text env
                (font_of_candidate env (system_font env) rank_font_size)
                rank rank_position)) in H0.
    rewrite !centered_text_text in H0. exact H0.
  - unfold VariantB.load_font.
    destruct (truetype_loads env _ name_font_size);
      destruct (truetype_loads env _ event_font_size);
      destruct (truetype_loads env _ rank_font_size); reflexivity.
Qed.

Lemma export_failure_frame env call fs c text img (p : str) :
  co_store c !! co_copy c = Some img ->
  p <> temp_image_path env call ->
  fst (fst (convert_to_pdf env call fs c text)) = None ->
  snd (fst (convert_to_pdf env call fs c text)) !! p = fs !! p.
Proof.
  intros Himg Hp.
  destruct (convert_to_pdf_cases env call fs c text img Himg)
    as [[_ ->]|[(_ & _ & ->)|(pl & _ & _ & _ & [[_ ->]|[_ ->]])]];
    cbn [fst snd]; try discriminate; intros _; [reflexivity|].
  now rewrite lookup_insert_ne.
Qed.

Lemma export_cleanup env call fs c text img out :
  co_store c !! co_copy c = Some img ->
  fst (fst (convert_to_pdf env call fs c text)) = Some out ->
  if removable env (temp_image_path env call)
  then snd (fst (convert_to_pdf env call fs c text)) !! temp_image_path env call
       = None
  else snd (fst (convert_to_pdf env call fs c text)) !! temp_image_path env call
       = Some (ImageFile img) /\
       last (snd (convert_to_pdf env call fs c text))
       = Some (WarningCouldNotDelete (temp_image_path env call)).
Proof.
  intros Himg.
  pose proof (temp_is_not_output env call text) as Hne.
  destruct (convert_to_pdf_cases env call fs c text img Himg)
    as [[_ ->]|[(_ & _ & ->)|(pl & _ & _ & _ & [[-> ->]|[-> ->]])]];
    cbn [fst snd]; try discriminate; intros _.
  - apply lookup_delete_eq.
  - split; [|apply last_snoc].
    rewrite lookup_insert_ne by congruence. apply lookup_insert_eq.
Qed.


(** X4. A render that fails writes no document and changes none: whatever
    failed, every file but the temporary one is as before. *)
Theorem failed_render_keeps_files (env : Env) (call : nat) (fs : filesystem)
    (image_path p : str) :
  p <> temp_image_path env call ->
  (forall text position font_path font_size,
     let r := VariantA.add_text_to_image_and_convert_to_pdf env call fs
                image_path text position font_path font_size in
     fst (fst r) = None -> snd (fst r) !! p = fs !! p) /\
  (forall name name_position name_font_size event_name event_position
          event_font_size rank rank_position rank_font_size,
     let r := VariantB.add_texts_to_image_and_convert_to_pdf env call fs
                image_path name name_position name_font_size
                event_name event_position event_font_size
                rank rank_position rank_font_size in
     fst (fst r) = None -> snd (fst r) !! p = fs !! p).
Proof.
  intros Hp. split; intros; subst r.
  - destruct (VariantA_render_cases env call fs image_path text position
                font_path font_size) as [[_ E]|(tpl & c & img & _ & E & Hc & _)];
      rewrite E in *; [reflexivity|]. now apply (export_failure_frame _ _ _ _ _ img).
  - destruct (VariantB_render_cases env call fs image_path
                name name_position name_font_size
                event_name event_position event_font_size
                rank rank_position rank_font_size)
      as [[_ E]|(tpl & c & img & _ & E & Hc & _)];
      rewrite E in *; [reflexivity|]. now apply (export_failure_frame _ _ _ _ _ img).
Qed.

Lemma failed_render_keeps_files_witness :
  let r := VariantA.add_text_to_image_and_convert_to_pdf demo_env_protected 1
             (<[py "Jane_Doe.pdf" := OtherFile]> demo_fs) (py "cert.jpg")
             (py "Jane Doe") (500%Q, 300%Q) None 36 in
  fst (fst r) = None /\
  snd (fst r) !! py "Jane_Doe.pdf" = Some OtherFile.
Proof.
  cbv zeta. split; [vm_compute; reflexivity|].
  rewrite (proj1 (failed_render_keeps_files demo_env_protected 1
                    (<[py "Jane_Doe.pdf" := OtherFile]> demo_fs)
                    (py "cert.jpg") (py "Jane_Doe.pdf")
                    ltac:(vm_compute; discriminate))
             (py "Jane Doe") (500%Q, 300%Q) None 36%Z
             ltac:(vm_compute; reflexivity)).
  vm_compute. reflexivity.
Defined.

(** X5. After a successful render the temporary raster is gone from the
    disk. When it cannot be removed the render succeeds all the same: the
    file stays and the last line printed is the warning. *)
Theorem temporary_file_cleanup (env : Env) (call : nat) (fs : filesystem)
    (image_path : str) :
  let temp := temp_image_path env call in
  (forall text position font_path font_size out,
     let r := VariantA.add_text_to_image_and_convert_to_pdf env call fs
                image_path text position font_path font_size in
     fst (fst r) = Some out ->
     if removable env temp then snd (fst r) !! temp = None
     else (exists img, snd (fst r) !! temp = Some (ImageFile img)) /\
          last (snd r) = Some (WarningCouldNotDelete temp)) /\
  (forall name name_position name_font_size event_name event_position
          event_font_size rank rank_position rank_font_size out,
     let r := VariantB.add_texts_to_image_and_convert_to_pdf env call fs
                image_path name name_position name_font_size
                event_name event_position event_font_size
                rank rank_position rank_font_size in
     fst (fst r) = Some out ->
     if removable env temp then snd (fst r) !! temp = None
     else (exists img, snd (fst r) !! temp = Some (ImageFile img)) /\
          last (snd r) = Some (WarningCouldNotDelete temp)).
Proof.
  cbv zeta. split; intros.
  - destruct (VariantA_render_cases env call fs image_path text position
                font_path font_size) as [[_ E]|(tpl & c & img & _ & E & Hc & _)];
      rewrite E in *; [discriminate|].
    pose proof (export_cleanup env call fs c text img out Hc H) as Hx.
    destruct (removable env (temp_image_path env call)); [exact Hx|].
    destruct Hx as [Hx1 Hx2]. eauto.
  - destruct (VariantB_render_cases env call fs image_path
                name name_position name_font_size
                event_name event_position event_font_size
                rank rank_position rank_font_size)
      as [[_ E]|(tpl & c & img & _ & E & Hc & _)];
      rewrite E in *; [discriminate|].
    pose proof (export_cleanup env call fs c name img out Hc H) as Hx.
    destruct (removable env (temp_image_path env call)); [exact Hx|].
    destruct Hx as [Hx1 Hx2]. eauto.
Qed.

Lemma temporary_file_cleanup_witness :
  (let r := VariantA.add_text_to_image_and_convert_to_pdf demo_env 1 demo_fs
              (py "cert.jpg") (py "Jane Doe") (500%Q, 300%Q) None 36 in
   fst (fst r) = Some (py "Jane_Doe.pdf") /\
   snd (fst r) !! temp_image_path demo_env 1 = None) /\
  (let r := VariantA.add_text_to_image_and_convert_to_pdf demo_env_locked 1
              demo_fs (py "cert.jpg") (py "Jane Doe") (500%Q, 300%Q) None 36 in
   fst (fst r) = Some (py "Jane_Doe.pdf") /\
   last (snd r) = Some (WarningCouldNotDelete (temp_image_path demo_env_locked 1))).
Proof.
  cbv zeta. split; (split; [vm_compute; reflexivity|]).
  - exact (proj1 (temporary_file_cleanup demo_env 1 demo_fs (py "cert.jpg"))
             (py "Jane Doe") (500%Q, 300%Q) None 36%Z (py "Jane_Doe.pdf")
             ltac:(vm_compute; reflexivity)).
  - exact (proj2 (proj1 (temporary_file_cleanup demo_env_locked 1 demo_fs
                           (py "cert.jpg"))
                    (py "Jane Doe") (500%Q, 300%Q) None 36%Z (py "Jane_Doe.pdf")
                    ltac:(vm_compute; reflexivity))).
Defined.



(** X7. The document of a successful render shows the template with the
    texts of this render drawn on it, in the order of the calls, and nothing
    else changed: the one text in variant A; the name, the event and the rank
    in variant B. Its raster has the size of the template. *)
Theorem document_shows_template_and_texts (env : Env) (call : nat)
    (fs : filesystem) (image_path : str) :
  (forall text position font_path font_size out fs' shown,
     VariantA.add_text_to_image_and_convert_to_pdf env call fs image_path text
       position font_path font_size = (Some out, fs', shown) ->
     exists tpl img pl,
       fs !! image_path = Some (ImageFile tpl) /\
       fs' !! out = Some (PdfFile (landscape letter) img pl) /\
       drawn_on tpl [text] img) /\
  (forall name name_position name_font_size event_name event_position
          event_font_size rank rank_position rank_font_size out fs' shown,
     VariantB.add_texts_to_image_and_convert_to_pdf env call fs image_path
       name name_position name_font_size
       event_name event_position event_font_size
       rank rank_position rank_font_size = (Some out, fs', shown) ->
     exists tpl img pl,
       fs !! image_path = Some (ImageFile tpl) /\
       fs' !! out = Some (PdfFile (landscape letter) img pl) /\
       drawn_on tpl [name; event_name; rank] img).
Proof.
  split; intros.
  - destruct (VariantA_render_cases env call fs image_path text position
                font_path font_size)
      as [[_ E]|(tpl & c & img & Etpl & E & Hc & Hd & _)];
      rewrite E in H; [discriminate|].
    apply convert_to_pdf_Some in H as (img' & pl & Hc' & _ & _ & Hdoc).
    rewrite Hc in Hc'. injection Hc' as <-. eauto 8.
  - destruct (VariantB_render_cases env call fs image_path
                name name_position name_font_size
                event_name event_position event_font_size
                rank rank_position rank_font_size)
      as [[_ E]|(tpl & c & img & Etpl & E & Hc & Hd & _)];
      rewrite E in H; [discriminate|].
    apply convert_to_pdf_Some in H as (img' & pl & Hc' & _ & _ & Hdoc).
    rewrite Hc in Hc'. injection Hc' as <-. eauto 8.
Qed.

Lemma document_shows_template_and_texts_witness :
  exists out fs' shown tpl img pl,
    VariantB.add_texts_to_image_and_convert_to_pdf demo_env 1 demo_fs
      (py "cert.jpg") (py "Jane Doe") (500%Q, 300%Q) 36
      (py "Science Fair") (500%Q, 200%Q) 24 (py "First") (500%Q, 400%Q) 20
    = (Some out, fs', shown) /\
    demo_fs !! py "cert.jpg" = Some (ImageFile tpl) /\
    fs' !! out = Some (PdfFile (landscape letter) img pl) /\
    drawn_on tpl [py "Jane Doe"; py "Science Fair"; py "First"] img.
Proof.
  pose (r := VariantB.add_texts_to_image_and_convert_to_pdf demo_env 1 demo_fs
               (py "cert.jpg") (py "Jane Doe") (500%Q, 300%Q) 36
               (py "Science Fair") (500%Q, 200%Q) 24 (py "First") (500%Q, 400%Q) 20).
  assert (E : r = (Some (py "Jane_Doe.pdf"), snd (fst r), snd r))
    by (vm_compute; reflexivity).
  destruct (proj2 (document_shows_template_and_texts demo_env 1 demo_fs
                     (py "cert.jpg")) _ _ _ _ _ _ _ _ _ _ _ _ E)
    as (tpl & img & pl & H1 & H2 & H3).
  exists (py "Jane_Doe.pdf"), (snd (fst r)), (snd r), tpl, img, pl. auto.
Defined.

(** X8. A template stored under the name a document gets is lost: the
    render that writes this document puts it where the template was, and
    every later render from that template path fails. *)
Theorem document_replaces_template (env : Env) (call : nat) (fs : filesystem)
    (image_path : str) :
  (forall text position font_path font_size out fs' shown,
     VariantA.add_text_to_image_and_convert_to_pdf env call fs image_path text
       position font_path font_size = (Some out, fs', shown) ->
     image_path = output_pdf_name text ->
     is_document fs' image_path /\
     forall call' text' position' font_path' font_size',
       fst (fst (VariantA.add_text_to_image_and_convert_to_pdf env call' fs'
                   image_path text' position' font_path' font_size')) = None) /\
  (forall name name_position name_font_size event_name event_position
          event_font_size rank rank_position rank_font_size out fs' shown,
     VariantB.add_texts_to_image_and_convert_to_pdf env call fs image_path
       name name_position name_font_size
       event_name event_position event_font_size
       rank rank_position rank_font_size = (Some out, fs', shown) ->
     image_path = output_pdf_name name ->
     is_document fs' image_path /\
     forall call' name' name_position' name_font_size' event_name'
            event_position' event_font_size' rank' rank_position'
            rank_font_size',
       fst (fst (VariantB.add_texts_to_image_and_convert_to_pdf env call' fs'
                   image_path name' name_position' name_font_size'
                   event_name' event_position' event_font_size'
                   rank' rank_position' rank_font_size')) = None).
Proof.
  split; intros.
  - apply VariantA_render_Some in H as (-> & img & pl & Hdoc & _).
    rewrite <- H0 in Hdoc. split; [red; eauto|]. intros.
    rewrite VariantA_render_result. unfold renderable. now rewrite Hdoc.
  - apply VariantB_render_Some in H as (-> & img & pl & Hdoc & _).
    rewrite <- H0 in Hdoc. split; [red; eauto|]. intros.
    rewrite VariantB_render_result. unfold renderable. now rewrite Hdoc.
Qed.

Lemma document_replaces_template_witness :
  exists fs',
    fst (fst (VariantA.add_text_to_image_and_convert_to_pdf demo_env 1
                demo_fs_pdf_template (py "Jane_Doe.pdf") (py "Jane Doe")
                (500%Q, 300%Q) None 36)) = Some (py "Jane_Doe.pdf") /\
    is_document fs' (py "Jane_Doe.pdf") /\
    fst (fst (VariantA.add_text_to_image_and_convert_to_pdf demo_env 2 fs'
                (py "Jane_Doe.pdf") (py "John Smith") (500%Q, 300%Q) None 36))
    = None.
Proof.
  pose (r := VariantA.add_text_to_image_and_convert_to_pdf demo_env 1
               demo_fs_pdf_template (py "Jane_Doe.pdf") (py "Jane Doe")
               (500%Q, 300%Q) None 36).
  assert (E : r = (Some (py "Jane_Doe.pdf"), snd (fst r), snd r))
    by (vm_compute; reflexivity).
  destruct (proj1 (document_replaces_template demo_env 1 demo_fs_pdf_template
                     (py "Jane_Doe.pdf")) _ _ _ _ _ _ _ E eq_refl) as [H1 H2].
  exists (snd (fst r)). split; [vm_compute; reflexivity|]. split; [exact H1|].
  apply H2.
Defined.

(** ** The batch *)

Lemma lstrip_idem (s : str) : lstrip (lstrip s) = lstrip s.
Proof.
  induction s as [|c r IH]; [reflexivity|]. simpl.
  destruct (isspace c) eqn:Ec; [exact IH|]. simpl. now rewrite Ec.
Qed.

Lemma strip_idem (s : str) : strip (strip s) = strip s.
Proof.
  unfold strip. rewrite !rstrip_trim_right, lstrip_trim_right, lstrip_idem.
  rewrite <- !rstrip_trim_right. unfold rstrip.
  now rewrite rev_involutive, lstrip_idem.
Qed.

Lemma strip_blank (s : str) : forallb isspace s = true -> strip s = [].
Proof. intros Hs. unfold strip. now rewrite (lstrip_all_space _ Hs). Qed.

Lemma lstrip_nil_split (s : str) : split s = [] -> lstrip s = [].
Proof.
  unfold split. induction s as [|c r IH]; [reflexivity|]. simpl.
  destruct (isspace c); [exact IH|]. intros E. exfalso.
  pose proof (split_scan_fields r (Some [c])) as Hf. rewrite E in Hf.
  pose proof (fields_not_nil r). destruct (fields r); congruence.
Qed.

Lemma nonempty_strip_split (s : str) :
  nonempty (strip s) = true -> split s <> [].
Proof.
  intros Hs E. apply lstrip_nil_split in E. unfold strip in Hs.
  rewrite E in Hs. discriminate Hs.
Qed.

Lemma nonblank_filter_blank (lines : list str) :
  Forall (fun line => forallb isspace line = true) lines ->
  List.filter (fun line => nonempty (strip line)) lines = [].
Proof.
  induction 1 as [|l ls Hl _ IH]; [reflexivity|]. simpl.
  now rewrite (strip_blank _ Hl).
Qed.

(** X9. The names read from the file are the lines that are not blank, each
    trimmed: none is empty, none has whitespace at either end, and there are
    no more of them than lines. *)
Theorem names_are_trimmed (fs : filesystem) (names_file : str) (lines : list str) :
  fs !! names_file = Some (TextFile lines) ->
  exists names,
    read_names fs names_file = Some names /\
    Forall (fun name => name <> [] /\ strip name = name) names /\
    (length names <= length lines)%nat.
Proof.
  intros E. unfold read_names. rewrite E. eexists. split; [reflexivity|]. split.
  - apply Forall_map. apply List.Forall_forall. intros l [_ Hl]%filter_In.
    split; [|apply strip_idem]. intros E'. rewrite E' in Hl. discriminate Hl.
  - rewrite length_map. apply List.filter_length_le.
Qed.

Lemma names_are_trimmed_witness :
  exists names,
    read_names demo_fs (py "names.txt") = Some names /\
    Forall (fun name => name <> [] /\ strip name = name) names /\
    (length names <= 3)%nat.
Proof.
  apply (names_are_trimmed demo_fs (py "names.txt")
           [py "jane doe"; py "  "; py " JOHN  smith "]).
  vm_compute. reflexivity.
Defined.

Section BatchMore.
Context `{CaseMapping}.
Variable render : nat -> filesystem -> str -> option str * filesystem * list printed.
Variable extra : list printed.

Lemma process_names_blank (fs : filesystem) (names_file : str) (lines : list str) :
  fs !! names_file = Some (TextFile lines) ->
  Forall (fun line => forallb isspace line = true) lines ->
  process_names render extra fs names_file = nothing_to_do fs names_file.
Proof.
  intros E Hb. unfold process_names. rewrite (read_names_text _ _ _ E).
  rewrite (nonblank_filter_blank _ Hb). reflexivity.
Qed.

(** A property of the file system that every render keeps holds after the
    batch. *)
Lemma batch_loop_fs (P : filesystem -> Prop) (total_names : nat) :
  (forall i fs name, P fs -> P (snd (fst (render i fs name)))) ->
  forall names i st,
    P (br_fs st) -> P (br_fs (batch_loop render extra total_names i names st)).
Proof.
  intros Hstep. induction names as [|raw_name rest IH]; intros i st Hst; simpl.
  - exact Hst.
  - pose proof (Hstep i (br_fs st) (title_case_name raw_name) Hst) as Hr.
    destruct (render i (br_fs st) (title_case_name raw_name)) as [[result fs'] out].
    destruct (truthy result); apply IH; exact Hr.
Qed.

Lemma process_names_fs (P : filesystem -> Prop) (fs : filesystem) (names_file : str) :
  (forall i fs name, P fs -> P (snd (fst (render i fs name)))) ->
  P fs -> P (br_fs (process_names render extra fs names_file)).
Proof.
  intros Hstep Hfs. unfold process_names.
  destruct (read_names fs names_file) as [names|]; [|exact Hfs].
  cbn [br_fs]. apply batch_loop_fs; assumption.
Qed.

(** When no render can succeed on [fs0] and none changes it, every item
    fails. *)
Lemma batch_loop_all_fail (fs0 : filesystem) (total_names : nat) :
  (forall i name, fst (render i fs0 name) = (None, fs0)) ->
  forall names i st,
    br_fs st = fs0 ->
    let st' := batch_loop render extra total_names i names st in
    br_fs st' = fs0 /\ br_successful st' = br_successful st /\
    br_failed st' = (br_failed st + length names)%nat.
Proof.
  intros Hfail. induction names as [|raw_name rest IH]; intros i st Hst; simpl.
  - repeat split; [exact Hst|lia].
  - rewrite Hst. pose proof (Hfail i (title_case_name raw_name)) as Hr.
    destruct (render i fs0 (title_case_name raw_name)) as [[result fs'] out].
    injection Hr as -> ->. cbn [truthy].
    match goal with
    | |- context [batch_loop _ _ _ _ _ ?s] =>
        destruct (IH (S i) s eq_refl) as (I1 & I2 & I3)
    end.
    rewrite I1, I2, I3. cbn [br_successful br_failed]. repeat split; lia.
Qed.

Lemma process_names_all_fail (fs : filesystem) (names_file : str) (lines : list str) :
  fs !! names_file = Some (TextFile lines) ->
  (forall i name, fst (render i fs name) = (None, fs)) ->
  let r := process_names render extra fs names_file in
  br_successful r = 0%nat /\
  br_failed r
  = length (List.filter (fun line => nonempty (strip line)) lines) /\
  br_fs r = fs.
Proof.
  intros E Hfail. cbv zeta. unfold process_names.
  rewrite (read_names_text _ _ _ E). cbn [br_successful br_failed br_fs].
  match goal with
  | |- context [batch_loop _ _ ?t ?i ?n ?s] =>
      destruct (batch_loop_all_fail fs t Hfail n i s eq_refl) as (I1 & I2 & I3)
  end.
  rewrite I1, I2, I3. cbn [br_successful br_failed]. rewrite length_map. auto.
Qed.

Hypothesis Hextra : forall out, ~ In (PdfCreated out) extra.
Hypothesis Hlog :
  forall i fs name, forallb render_message (snd (render i fs name)) = true.
Hypothesis Hok :
  forall i fs name out,
    fst (fst (render i fs name)) = Some out ->
    (exists t, out = output_pdf_name t) /\
    is_document (snd (fst (render i fs name))) out.
Hypothesis Hkeep :
  forall i fs name t,
    is_document fs (output_pdf_name t) ->
    is_document (snd (fst (render i fs name))) (output_pdf_name t).

Lemma batch_loop_reported (total_names : nat) (names : list str) :
  forall i st,
    (forall out, In (PdfCreated out) (br_printed st) ->
                 (exists t, out = output_pdf_name t) /\ is_document (br_fs st) out) ->
    forall out,
      In (PdfCreated out)
         (br_printed (batch_loop render extra total_names i names st)) ->
      (exists t, out = output_pdf_name t) /\
      is_document (br_fs (batch_loop render extra total_names i names st)) out.
Proof.
  induction names as [|raw_name rest IH]; intros i st Hst; simpl; [exact Hst|].
  pose proof (Hlog i (br_fs st) (title_case_name raw_name)) as Hl.
  pose proof (Hok i (br_fs st) (title_case_name raw_name)) as Ho.
  pose proof (fun t => Hkeep i (br_fs st) (title_case_name raw_name) t) as Hk.
  destruct (render i (br_fs st) (title_case_name raw_name)) as [[result fs'] out'].
  cbn [fst snd] in *.
  assert (Hold : forall o,
            In (PdfCreated o)
               (br_printed st
                ++ Processing i total_names raw_name (title_case_name raw_name)
                   :: extra ++ out') ->
            (exists t, o = output_pdf_name t) /\ is_document fs' o).
  { intros o [Hin|[Hin|Hin]]%in_app_or; [| discriminate Hin |].
    - destruct (Hst o Hin) as [[t ->] Hd]. split; [eauto|]. now apply Hk.
    - apply in_app_or in Hin as [Hin|Hin]; [now destruct (Hextra o)|].
      rewrite forallb_forall in Hl. specialize (Hl _ Hin). discriminate Hl. }
  destruct result as [[|c res]|]; cbn [truthy]; apply IH; cbn [br_printed br_fs];
    intros o [Hin|[Hin|[]]]%in_app_or; try (now apply Hold); try discriminate Hin.
  injection Hin as <-. now apply Ho.
Qed.

Lemma process_names_reported (fs : filesystem) (names_file : str) :
  reported_exist (process_names render extra fs names_file).
Proof.
  unfold reported_exist, process_names. intros out.
  destruct (read_names fs names_file) as [names|]; cbn [br_printed br_fs].
  - intros [Hin|[Hin|[]]]%in_app_or; [|discriminate Hin].
    eapply batch_loop_reported; [|exact Hin].
    cbn [br_printed]. intros o [Ho|[]]. discriminate Ho.
  - intros [Hin|[]]. discriminate Hin.
Qed.
End BatchMore.

Lemma font_messages_render (l : list printed) :
  forallb font_message l = true -> forallb render_message l = true.
Proof.
  induction l as [|m l IH]; [reflexivity|]. simpl.
  intros [Hm Hl]%andb_prop. unfold render_message at 1. rewrite Hm, IH by exact Hl.
  reflexivity.
Qed.

Lemma convert_to_pdf_log env call fs c text img :
  co_store c !! co_copy c = Some img ->
  forallb font_message (co_printed c) = true ->
  forallb render_message (snd (convert_to_pdf env call fs c text)) = true.
Proof.
  intros Himg Hf. apply font_messages_render in Hf.
  destruct (convert_to_pdf_cases env call fs c text img Himg)
    as [[_ ->]|[(_ & _ & ->)|(pl & _ & _ & _ & [[_ ->]|[_ ->]])]];
    cbn [fst snd]; rewrite ?forallb_app, Hf; reflexivity.
Qed.

Lemma convert_to_pdf_keeps_documents env call fs c text img (t : str) :
  co_store c !! co_copy c = Some img ->
  is_document fs (output_pdf_name t) ->
  is_document (snd (fst (convert_to_pdf env call fs c text))) (output_pdf_name t).
Proof.
  intros Himg (ps & d & pl0 & Hd).
  pose proof (temp_is_not_output env call t) as Hne.
  assert (Htemp : forall v, (<[temp_image_path env call := v]> fs)
                            !! output_pdf_name t = Some (PdfFile ps d pl0))
    by (intros v; now rewrite lookup_insert_ne).
  assert (Hout : forall v,
            is_document (<[output_pdf_name text := PdfFile (landscape letter) img v]>
                           (<[temp_image_path env call := ImageFile img]> fs))
                        (output_pdf_name t)).
  { intros v. destruct (decide (output_pdf_name text = output_pdf_name t)) as [->|Hd'].
    - red. rewrite lookup_insert_eq. eauto.
    - red. rewrite lookup_insert_ne by exact Hd'. rewrite Htemp. eauto. }
  destruct (convert_to_pdf_cases env call fs c text img Himg)
    as [[_ ->]|[(_ & _ & ->)|(pl & _ & _ & _ & [[_ ->]|[_ ->]])]];
    cbn [fst snd].
  - red. eauto.
  - red. rewrite Htemp. eauto.
  - destruct (Hout pl) as (ps' & d' & pl' & Hd').
    red. rewrite lookup_delete_ne by exact Hne. eauto.
  - apply Hout.
Qed.

Section Renderers.
Variable env : Env.
Variable image_path : str.

Lemma VariantA_render_log call fs text position font_path font_size :
  forallb render_message
    (snd (VariantA.add_text_to_image_and_convert_to_pdf env call fs image_path
            text position font_path font_size)) = true.
Proof.
  destruct (VariantA_render_cases env call fs image_path text position
              font_path font_size) as [[_ ->]|(tpl & c & img & _ & -> & Hc & _ & Hf)];
    [reflexivity|]. now apply (convert_to_pdf_log _ _ _ _ _ img).
Qed.

Lemma VariantA_render_ok call fs text position font_path font_size out :
  fst (fst (VariantA.add_text_to_image_and_convert_to_pdf env call fs image_path
              text position font_path font_size)) = Some out ->
  (exists t, out = output_pdf_name t) /\
  is_document
    (snd (fst (VariantA.add_text_to_image_and_convert_to_pdf env call fs
                 image_path text position font_path font_size))) out.
Proof.
  destruct (VariantA.add_text_to_image_and_convert_to_pdf env call fs image_path
              text position font_path font_size) as [[r fs'] shown] eqn:E.
  cbn [fst snd]. intros ->.
  apply VariantA_render_Some in E as (-> & img & pl & Hdoc & _).
  split; [eauto|]. red. eauto.
Qed.

Lemma VariantA_render_keeps call fs text position font_path font_size t :
  is_document fs (output_pdf_name t) ->
  is_document
    (snd (fst (VariantA.add_text_to_image_and_convert_to_pdf env call fs
                 image_path text position font_path font_size)))
    (output_pdf_name t).
Proof.
  intros Hd.
  destruct (VariantA_render_cases env call fs image_path text position
              font_path font_size) as [[_ ->]|(tpl & c & img & _ & -> & Hc & _)];
    [exact Hd|]. now apply (convert_to_pdf_keeps_documents _ _ _ _ _ img).
Qed.

Lemma VariantA_render_no_image call fs text position font_path font_size :
  (forall tpl, fs !! image_path <> Some (ImageFile tpl)) ->
  fst (VariantA.add_text_to_image_and_convert_to_pdf env call fs image_path
         text position font_path font_size) = (None, fs).
Proof.
  intros Hno.
  destruct (VariantA_render_cases env call fs image_path text position
              font_path font_size) as [[_ ->]|(tpl & _ & _ & E & _)];
    [reflexivity|]. now destruct (Hno tpl).
Qed.

Variables (name_position : Q * Q) (name_font_size : Z).
Variables (event_name : str) (event_position : Q * Q) (event_font_size : Z).
Variables (rank : str) (rank_position : Q * Q) (rank_font_size : Z).

Lemma VariantB_render_log call fs name :
  forallb render_message
    (snd (VariantB.add_texts_to_image_and_convert_to_pdf env call fs image_path
            name name_position name_font_size
            event_name event_position event_font_size
            rank rank_position rank_font_size)) = true.
Proof.
  destruct (VariantB_render_cases env call fs image_path
              name name_position name_font_size
              event_name event_position event_font_size
              rank rank_position rank_font_size)
    as [[_ ->]|(tpl & c & img & _ & -> & Hc & _ & Hf)];
    [reflexivity|]. now apply (convert_to_pdf_log _ _ _ _ _ img).
Qed.

Lemma VariantB_render_ok call fs name out :
  fst (fst (VariantB.add_texts_to_image_and_convert_to_pdf env call fs image_path
              name name_position name_font_size
              event_name event_position event_font_size
              rank rank_position rank_font_size)) = Some out ->
  (exists t, out = output_pdf_name t) /\
  is_document
    (snd (fst (VariantB.add_texts_to_image_and_convert_to_pdf env call fs
                 image_path name name_position name_font_size
                 event_name event_position event_font_size
                 rank rank_position rank_font_size))) out.
Proof.
  destruct (VariantB.add_texts_to_image_and_convert_to_pdf env call fs image_path
              name name_position name_font_size
              event_name event_position event_font_size
              rank rank_position rank_font_size) as [[r fs'] shown] eqn:E.
  cbn [fst snd]. intros ->.
  apply VariantB_render_Some in E as (-> & img & pl & Hdoc & _).
  split; [eauto|]. red. eauto.
Qed.

Lemma VariantB_render_keeps call fs name t :
  is_document fs (output_pdf_name t) ->
  is_document
    (snd (fst (VariantB.add_texts_to_image_and_convert_to_pdf env call fs
                 image_path name name_position name_font_size
                 event_name event_position event_font_size
                 rank rank_position rank_font_size)))
    (output_pdf_name t).
Proof.
  intros Hd.
  destruct (VariantB_render_cases env call fs image_path
              name name_position name_font_size
              event_name event_position event_font_size
              rank rank_position rank_font_size)
    as [[_ ->]|(tpl & c & img & _ & -> & Hc & _)];
    [exact Hd|]. now apply (convert_to_pdf_keeps_documents _ _ _ _ _ img).
Qed.

Lemma VariantB_render_no_image call fs name :
  (forall tpl, fs !! image_path <> Some (ImageFile tpl)) ->
  fst (VariantB.add_texts_to_image_and_convert_to_pdf env call fs image_path
         name name_position name_font_size
         event_name event_position event_font_size
         rank rank_position rank_font_size) = (None, fs).
Proof.
  intros Hno.
  destruct (VariantB_render_cases env call fs image_path
              name name_position name_font_size
              event_name event_position event_font_size
              rank rank_position rank_font_size)
    as [[_ ->]|(tpl & _ & _ & E & _)];
    [reflexivity|]. now destruct (Hno tpl).
Qed.
End Renderers.

Lemma not_jpg_not_temp (env : Env) (call : nat) (p : str) :
  (forall a, p <> a ++ py ".jpg") -> p <> temp_image_path env call.
Proof. intros Hp E. apply (Hp (py "temp_with_text_" ++ uuid4 env call)).
  rewrite E. unfold temp_image_path. now rewrite <- app_assoc. Qed.

Lemma not_pdf_not_output (text p : str) :
  (forall a, p <> a ++ py ".pdf") -> p <> output_pdf_name text.
Proof. intros Hp E. now apply (Hp (replace_1char SPACE UNDERSCORE (strip text))). Qed.

(** X10. A names file with blank lines only gives a batch with nothing to
    do: zero names found, the summary 0 of 0, no render, no file written. *)
Theorem blank_names_file `{CaseMapping} (env : Env) (fs : filesystem)
    (names_file : str) (lines : list str) :
  fs !! names_file = Some (TextFile lines) ->
  Forall (fun line => forallb isspace line = true) lines ->
  (forall image_path position font_path font_size,
     VariantA.process_names_from_file env fs image_path names_file position
       font_path font_size = nothing_to_do fs names_file) /\
  (forall image_path name_position name_font_size event_name event_position
          event_font_size rank rank_position rank_font_size,
     VariantB.process_names_from_file env fs image_path names_file
       name_position name_font_size event_name event_position
       event_font_size rank rank_position rank_font_size
     = nothing_to_do fs names_file).
Proof.
  intros E Hb. split; intros; now apply (process_names_blank _ _ _ _ lines).
Qed.

Lemma blank_names_file_witness :
  VariantA.process_names_from_file demo_env
    (<[py "blank.txt" := TextFile [py "  "; []; [0x09; 0x0A]]]> demo_fs)
    (py "cert.jpg") (py "blank.txt") (500%Q, 300%Q) None 36
  = nothing_to_do
      (<[py "blank.txt" := TextFile [py "  "; []; [0x09; 0x0A]]]> demo_fs)
      (py "blank.txt").
Proof.
  assert (E : (<[py "blank.txt" := TextFile [py "  "; []; [0x09; 0x0A]]]> demo_fs)
              !! py "blank.txt" = Some (TextFile [py "  "; []; [0x09; 0x0A]]))
    by (vm_compute; reflexivity).
  assert (Hb : Forall (fun line => forallb isspace line = true)
                 [py "  "; []; [0x09; 0x0A]])
    by (repeat constructor).
  exact (proj1 (blank_names_file demo_env _ _ _ E Hb) _ _ _ _).
Defined.

(** X11. With a template that does not open, every name is still tried and
    every one fails: the tally is 0 successful and all failed, and the file
    system is left as it was. *)
Theorem missing_template_fails_every_item `{CaseMapping} (env : Env)
    (fs : filesystem) (image_path names_file : str) (lines : list str) :
  (forall tpl, fs !! image_path <> Some (ImageFile tpl)) ->
  fs !! names_file = Some (TextFile lines) ->
  let total := length (List.filter (fun line => nonempty (strip line)) lines) in
  (forall position font_path font_size,
     let r := VariantA.process_names_from_file env fs image_path names_file
                position font_path font_size in
     br_successful r = 0%nat /\ br_failed r = total /\ br_fs r = fs) /\
  (forall name_position name_font_size event_name event_position
          event_font_size rank rank_position rank_font_size,
     let r := VariantB.process_names_from_file env fs image_path names_file
                name_position name_font_size event_name event_position
                event_font_size rank rank_position rank_font_size in
     br_successful r = 0%nat /\ br_failed r = total /\ br_fs r = fs).
Proof.
  intros Hno E. cbv zeta. split; intros.
  - apply (process_names_all_fail _ _ fs names_file lines E).
    intros i name. now apply VariantA_render_no_image.
  - apply (process_names_all_fail _ _ fs names_file lines E).
    intros i name. now apply VariantB_render_no_image.
Qed.

Lemma missing_template_fails_every_item_witness :
  let r := VariantA.process_names_from_file demo_env demo_fs (py "none.jpg")
             (py "names.txt") (500%Q, 300%Q) None 36 in
  br_successful r = 0%nat /\ br_failed r = 2%nat /\ br_fs r = demo_fs.
Proof.
  assert (Hno : forall tpl, demo_fs !! py "none.jpg" <> Some (ImageFile tpl))
    by (intros tpl E; vm_compute in E; discriminate E).
  assert (E : demo_fs !! py "names.txt"
              = Some (TextFile [py "jane doe"; py "  "; py " JOHN  smith "]))
    by (vm_compute; reflexivity).
  exact (proj1 (missing_template_fails_every_item demo_env demo_fs _ _ _ Hno E)
           _ _ _).
Defined.

(** X12. A batch writes and removes files with names in [.jpg] and [.pdf]
    only: every other file, the names file among them, is after the batch
    what it was before. *)
Theorem batch_leaves_other_files `{CaseMapping} (env : Env) (fs : filesystem)
    (names_file p : str) :
  (forall a, p <> a ++ py ".jpg") ->
  (forall a, p <> a ++ py ".pdf") ->
  (forall image_path position font_path font_size,
     br_fs (VariantA.process_names_from_file env fs image_path names_file
              position font_path font_size) !! p = fs !! p) /\
  (forall image_path name_position name_font_size event_name event_position
          event_font_size rank rank_position rank_font_size,
     br_fs (VariantB.process_names_from_file env fs image_path names_file
              name_position name_font_size event_name event_position
              event_font_size rank rank_position rank_font_size) !! p
     = fs !! p).
Proof.
  intros Hjpg Hpdf. split; intros.
  - apply (process_names_fs _ _ (fun fs' => fs' !! p = fs !! p));
      [|reflexivity].
    intros i fs0 name <-. apply VariantA_render_frame;
      [now apply not_jpg_not_temp | now apply not_pdf_not_output].
  - apply (process_names_fs _ _ (fun fs' => fs' !! p = fs !! p));
      [|reflexivity].
    intros i fs0 name <-. apply VariantB_render_frame;
      [now apply not_jpg_not_temp | now apply not_pdf_not_output].
Qed.

Lemma batch_leaves_other_files_witness :
  br_fs (VariantA.process_names_from_file demo_env demo_fs (py "cert.jpg")
           (py "names.txt") (500%Q, 300%Q) None 36) !! py "names.txt"
  = demo_fs !! py "names.txt".
Proof.
  assert (Hj : forall a, py "names.txt" <> a ++ py ".jpg")
    by (intros a E; apply (f_equal (@rev char)) in E;
        rewrite rev_app_distr in E; discriminate E).
  assert (Hp : forall a, py "names.txt" <> a ++ py ".pdf")
    by (intros a E; apply (f_equal (@rev char)) in E;
        rewrite rev_app_distr in E; discriminate E).
  exact (proj1 (batch_leaves_other_files demo_env demo_fs (py "names.txt") _ Hj Hp)
           _ _ _ _).
Defined.

(** X13. Every document the transcript of a batch reports as created is on
    disk when the batch ends: a later item may replace it by its own
    document, none removes it. *)
Theorem reported_documents_exist `{CaseMapping} (env : Env) (fs : filesystem)
    (image_path names_file : str) :
  (forall position font_path font_size,
     reported_exist
       (VariantA.process_names_from_file env fs image_path names_file position
          font_path font_size)) /\
  (forall name_position name_font_size event_name event_position
          event_font_size rank rank_position rank_font_size,
     reported_exist
       (VariantB.process_names_from_file env fs image_path names_file
          name_position name_font_size event_name event_position
          event_font_size rank rank_position rank_font_size)).
Proof.
  split; intros.
  - apply process_names_reported.
    + intros out [].
    + intros. apply VariantA_render_log.
    + intros. now apply VariantA_render_ok.
    + intros. now apply VariantA_render_keeps.
  - apply process_names_reported.
    + intros out [Hin|[]]. discriminate Hin.
    + intros. apply VariantB_render_log.
    + intros. now apply VariantB_render_ok.
    + intros. now apply VariantB_render_keeps.
Qed.

Lemma reported_documents_exist_witness :
  is_document
    (br_fs (VariantA.process_names_from_file demo_env demo_fs (py "cert.jpg")
              (py "names.txt") (500%Q, 300%Q) None 36))
    (py "Jane_Doe.pdf").
Proof.
  apply (proj1 (reported_documents_exist demo_env demo_fs (py "cert.jpg")
                  (py "names.txt")) (500%Q, 300%Q) None 36%Z (py "Jane_Doe.pdf")).
  vm_compute. auto 10.
Defined.

Lemma normalized_not_empty `{CaseMapping} (x : str) :
  ascii_exact -> forallb is_ascii x = true -> split x <> [] ->
  title_case_name x <> [] /\ output_pdf_name (title_case_name x) <> py ".pdf".
Proof.
  intros Hexact Ha Hx.
  assert (Hs : split (title_case_name x) <> []).
  { rewrite split_normalized by assumption.
    destruct (split x); [congruence|discriminate]. }
  split.
  - intros E. apply Hs. now rewrite E.
  - unfold output_pdf_name. intros E.
    apply (app_inv_tail (py ".pdf") _ []) in E.
    apply Hs. rewrite <- split_strip.
    destruct (strip (title_case_name x)); [reflexivity|discriminate E].
Qed.

(** X14. A batch over ASCII names never renders an empty text: every
    normalized name handed to the renderer has a character in it, and no
    document is named [.pdf] alone. *)
Theorem batch_renders_no_empty_text `{CaseMapping} (env : Env) (fs : filesystem)
    (names_file : str) (lines : list str) :
  ascii_exact ->
  fs !! names_file = Some (TextFile lines) ->
  Forall (fun line => forallb is_ascii line = true) lines ->
  (forall image_path position font_path font_size,
     Forall (fun text => text <> [] /\ output_pdf_name text <> py ".pdf")
       (br_rendered
          (VariantA.process_names_from_file env fs image_path names_file
             position font_path font_size))) /\
  (forall image_path name_position name_font_size event_name event_position
          event_font_size rank rank_position rank_font_size,
     Forall (fun text => text <> [] /\ output_pdf_name text <> py ".pdf")
       (br_rendered
          (VariantB.process_names_from_file env fs image_path names_file
             name_position name_font_size event_name event_position
             event_font_size rank rank_position rank_font_size))).
Proof.
  intros Hexact E Ha.
  assert (Hall : Forall (fun text => text <> [] /\ output_pdf_name text <> py ".pdf")
            (List.map (fun line => title_case_name (strip line))
               (List.filter (fun line => nonempty (strip line)) lines))).
  { apply Forall_map. apply List.Forall_forall. intros l [Hin Hl]%filter_In.
    rewrite List.Forall_forall in Ha. apply normalized_not_empty.
    - exact Hexact.
    - apply strip_forallb, Ha, Hin.
    - rewrite split_strip. now apply nonempty_strip_split. }
  split; intros.
  - unfold VariantA.process_names_from_file.
    destruct (process_names_tally
                (fun call fs' name =>
                   VariantA.add_text_to_image_and_convert_to_pdf env call fs'
                     image_path name position font_path font_size)
                [] fs names_file lines E) as [-> _]. exact Hall.
  - unfold VariantB.process_names_from_file.
    destruct (process_names_tally
                (fun call fs' name =>
                   VariantB.add_texts_to_image_and_convert_to_pdf env call fs'
                     image_path name name_position name_font_size
                     event_name event_position event_font_size
                     rank rank_position rank_font_size)
                [EventAndRank event_name rank] fs names_file lines E) as [-> _].
    exact Hall.
Qed.

Lemma batch_renders_no_empty_text_witness :
  Forall (fun text => text <> [] /\ output_pdf_name text <> py ".pdf")
    (br_rendered
       (VariantA.process_names_from_file demo_env demo_fs (py "cert.jpg")
          (py "names.txt") (500%Q, 300%Q) None 36)).
Proof.
  assert (E : demo_fs !! py "names.txt"
              = Some (TextFile [py "jane doe"; py "  "; py " JOHN  smith "]))
    by (vm_compute; reflexivity).
  assert (Ha : Forall (fun line => forallb is_ascii line = true)
                 [py "jane doe"; py "  "; py " JOHN  smith "])
    by (repeat constructor).
  exact (proj1 (batch_renders_no_empty_text demo_env demo_fs _ _
                  basic_latin_ascii_exact E Ha) _ _ _ _).
Defined.

(** ** The command line, the page and the file name *)

#[local] Arguments VariantA.process_names_from_file : simpl never.
#[local] Arguments VariantB.process_names_from_file : simpl never.

(** X15. [main] of variant A by the number of arguments: with fewer than
    three arguments after the script name it shows the usage, and only then;
    with exactly three an exception leaves it; with four or more it never
    raises [IndexError]: it runs the batch, or raises [ValueError] for a
    number that [int] does not read. *)
Theorem main_by_argument_count `{CaseMapping} (env : Env) (fs : filesystem)
    (argv : list str) :
  (VariantA.main env fs argv = UsageShown <-> (length argv < 4)%nat) /\
  (length argv = 4%nat -> exists e, VariantA.main env fs argv = Uncaught e) /\
  ((5 <= length argv)%nat ->
   VariantA.main env fs argv = Uncaught ValueError \/
   exists r, VariantA.main env fs argv = Completed r).
Proof.
  split; [|split].
  - unfold VariantA.main. destruct (Nat.ltb_spec (length argv) 4) as [Hlt|Hge].
    + tauto.
    + split; [|lia]. intros E. exfalso.
      destruct (VariantA.parse_args env argv) as [e|[[[[? ?] ?] ?] ?]];
        discriminate E.
  - intros Hlen.
    do 4 (destruct argv as [|? argv]; [discriminate Hlen|]).
    destruct argv; [|discriminate Hlen].
    unfold VariantA.main, VariantA.parse_args, int. cbn.
    destruct (py_int env _); cbn; eauto.
  - intros Hlen.
    do 5 (destruct argv as [|? argv]; [simpl in Hlen; lia|]).
    unfold VariantA.main, VariantA.parse_args, int. cbn.
    do 2 (destruct (py_int env _); cbn; [|now left]).
    destruct argv as [|a5 argv]; cbn; [right; eauto|].
    destruct argv as [|a6 argv]; cbn; [right; eauto|].
    destruct (py_int env a6); cbn; [right; eauto|now left].
Qed.

Lemma main_by_argument_count_witness :
  VariantA.main demo_env demo_fs
    [py "script.py"; py "cert.jpg"; py "names.txt"; py "500"; py "3oo"]
  = Uncaught ValueError \/
  exists r,
    VariantA.main demo_env demo_fs
      [py "script.py"; py "cert.jpg"; py "names.txt"; py "500"; py "3oo"]
    = Completed r.
Proof.
  apply (proj2 (proj2 (main_by_argument_count demo_env demo_fs
                         [py "script.py"; py "cert.jpg"; py "names.txt";
                          py "500"; py "3oo"]))).
  simpl. lia.
Defined.

(** X16. [main] of variant B by the number of arguments: with fewer than ten
    arguments after the script name it shows the usage, and only then; with
    ten, eleven or twelve an exception leaves it; with thirteen or more it
    never raises [IndexError]. *)
Theorem main_by_argument_count_winners `{CaseMapping} (env : Env)
    (fs : filesystem) (argv : list str) :
  (VariantB.main env fs argv = UsageShown <-> (length argv < 11)%nat) /\
  ((11 <= length argv < 14)%nat ->
   exists e, VariantB.main env fs argv = Uncaught e) /\
  ((14 <= length argv)%nat ->
   VariantB.main env fs argv = Uncaught ValueError \/
   exists r, VariantB.main env fs argv = Completed r).
Proof.
  split; [|split].
  - unfold VariantB.main. destruct (Nat.ltb_spec (length argv) 11) as [Hlt|Hge].
    + tauto.
    + split; [|lia]. intros E. exfalso.
      destruct (VariantB.parse_args env argv) as [e|a]; discriminate E.
  - intros Hlen.
    do 11 (destruct argv as [|? argv]; [simpl in Hlen; lia|]).
    unfold VariantB.main, VariantB.parse_args, int. cbn.
    do 6 (destruct (py_int env _); cbn; [|eauto]).
    destruct argv as [|a11 argv]; cbn; [eauto|].
    destruct (py_int env a11); cbn; [|eauto].
    destruct argv as [|a12 argv]; cbn; [eauto|].
    destruct (py_int env a12); cbn; [|eauto].
    destruct argv as [|a13 argv]; cbn; [eauto|].
    simpl in Hlen. lia.
  - intros Hlen.
    do 14 (destruct argv as [|? argv]; [simpl in Hlen; lia|]).
    unfold VariantB.main, VariantB.parse_args, int. cbn.
    do 9 (destruct (py_int env _); cbn; [|now left]).
    right. eauto.
Qed.

Lemma main_by_argument_count_winners_witness :
  exists e,
    VariantB.main demo_env demo_fs
      [py "script.py"; py "cert.jpg"; py "names.txt"; py "500"; py "300";
       py "36"; py "Science Fair"; py "500"; py "200"; py "24"; py "First";
       py "500"; py "400"]
    = Uncaught e.
Proof.
  apply (proj1 (proj2 (main_by_argument_count_winners demo_env demo_fs
                         [py "script.py"; py "cert.jpg"; py "names.txt";
                          py "500"; py "300"; py "36"; py "Science Fair";
                          py "500"; py "200"; py "24"; py "First";
                          py "500"; py "400"]))).
  simpl. lia.
Defined.

(** X17. The optional arguments of variant A: without them the batch runs
    with no font path and font size 30; a fifth argument is the font path;
    a sixth is the font size; arguments after the sixth are not read. *)
Theorem main_optional_arguments `{CaseMapping} (env : Env) (fs : filesystem)
    (script image_path names_file x y : str) (x_pos y_pos : Z) :
  py_int env x = Some x_pos -> py_int env y = Some y_pos ->
  let position := (inject_Z x_pos, inject_Z y_pos) in
  VariantA.main env fs [script; image_path; names_file; x; y]
  = Completed (VariantA.process_names_from_file env fs image_path names_file
                 position None 30) /\
  (forall font_path,
     VariantA.main env fs [script; image_path; names_file; x; y; font_path]
     = Completed (VariantA.process_names_from_file env fs image_path names_file
                    position (Some font_path) 30)) /\
  (forall font_path size font_size more,
     py_int env size = Some font_size ->
     VariantA.main env fs
       (script :: image_path :: names_file :: x :: y :: font_path :: size :: more)
     = Completed (VariantA.process_names_from_file env fs image_path names_file
                    position (Some font_path) font_size)).
Proof.
  intros Hx Hy. cbv zeta.
  unfold VariantA.main, VariantA.parse_args, int. cbn.
  rewrite Hx, Hy. cbn. split; [reflexivity|]. split; [reflexivity|].
  intros font_path size font_size more Hs. rewrite Hs. reflexivity.
Qed.

Lemma main_optional_arguments_witness :
  VariantA.main demo_env demo_fs
    [py "script.py"; py "cert.jpg"; py "names.txt"; py "500"; py "300"]
  = Completed (VariantA.process_names_from_file demo_env demo_fs (py "cert.jpg")
                 (py "names.txt") (inject_Z 500, inject_Z 300) None 30).
Proof.
  assert (Hx : py_int demo_env (py "500") = Some 500%Z) by (vm_compute; reflexivity).
  assert (Hy : py_int demo_env (py "300") = Some 300%Z) by (vm_compute; reflexivity).
  exact (proj1 (main_optional_arguments demo_env demo_fs (py "script.py")
                  (py "cert.jpg") (py "names.txt") _ _ _ _ Hx Hy)).
Defined.

Local Open Scope Q_scope.



Local Close Scope Q_scope.

(** X19. The name of a document never has a space in it, and is the trimmed
    text and four characters long: spaces become underscores one for one,
    nothing else is changed or dropped. *)
Theorem file_name_has_no_space (text : str) :
  ~ In SPACE (output_pdf_name text) /\
  length (output_pdf_name text) = (length (strip text) + 4)%nat.
Proof.
  unfold output_pdf_name, replace_1char. split.
  - intros [Hin|Hin]%in_app_or.
    + apply in_map_iff in Hin as (c & Hc & _).
      destruct (N.eqb_spec c SPACE); [discriminate Hc|congruence].
    + vm_compute in Hin. intuition discriminate.
  - rewrite length_app, length_map. reflexivity.
Qed.
